(** * Potion shop: carts, checkout ledger, catalog and order search

    A shallow embedding of [src/api/carts.py] and [src/api/catalog.py].

    The endpoints talk to a PostgreSQL database through SQLAlchemy.  The
    database is modelled as a record of tables; every endpoint becomes a
    function from the committed database to a new committed database and
    an outcome (a returned value or a raised exception).  A handler that
    raises inside [with db.engine.begin()] rolls its transaction back.

    Integers are Python/SQL integers taken as [Z]; the DDL of the tables is
    not part of the sources, so column widths and constraints are not
    modelled.  The keys [carts.cart_id] and [potions.sku] identify their rows
    (the handlers read them with [.first()]), hence these two tables are
    finite maps; all other tables are lists in insertion order.

    Three readings of the environment are fixed here:
    - the weekday [convert_days[datetime.utcnow().weekday()]] is an argument
      of the handlers, the same for every clock reading of one request;
    - a connection sees its own writes and the committed rows of the others;
      [get_cart] opens a connection of its own, also when [checkout] calls
      it, so inside a checkout it reads the database as last committed;
    - [connection.commit()] at the end of [checkout] commits the transaction
      and the [with] block then has nothing left to do. *)

From Stdlib Require Import Ascii.
From stdpp Require Import gmap strings list fin_maps pretty sorting.

Open Scope Z_scope.

(** ** Python values and exceptions *)

Module Py.

(** The kinds of the error taxonomy.  No statement of the sources raises
    one of them; they are here so that statements about them can be
    written down. *)
Inductive error_kind :=
  | CartNotFound
  | ItemNotFound
  | CartAlreadySettled
  | InvalidQuantity
  | InsufficientStock
  | StorageFailure.

(** Exceptions an endpoint can end with. *)
Inductive exn :=
  | AttributeError (attr : string)   (* 'NoneType' object has no attribute attr *)
  | ValueError                       (* int() on a malformed literal *)
  | DataError                        (* the database rejects the statement *)
  | ApiError (kind : error_kind).    (* a discriminated error of the taxonomy *)

Inductive outcome (A : Type) :=
  | Returned (a : A)
  | Raised (e : exn).
Arguments Returned {A} a.
Arguments Raised {A} e.

(** [str(n)] for an integer. *)
Definition str (n : Z) : string := pretty n.

(** [repr] of a list of integers, as an f-string prints an [int[]] column. *)
Fixpoint repr_items (l : list Z) : string :=
  match l with
  | [] => ""
  | [x] => str x
  | x :: rest => str x +:+ ", " +:+ repr_items rest
  end.

Definition repr_list (l : list Z) : string := "[" +:+ repr_items l +:+ "]".

(** [s[:-1]]: everything but the last character. *)
Fixpoint drop_last (s : string) : string :=
  match s with
  | EmptyString => EmptyString
  | String c EmptyString => EmptyString
  | String c rest => String c (drop_last rest)
  end.

(** Truth value of an optional string ([None] and [""] are false). *)
Definition truthy_str (o : option string) : bool :=
  match o with
  | None => false
  | Some EmptyString => false
  | Some (String _ _) => true
  end.

(** *** [int(s)] on ASCII text

    Surrounding whitespace (tab, line feed, vertical tab, form feed,
    carriage return, space) is stripped, one sign is allowed, and digits may
    be grouped by single underscores. *)

Definition is_space (c : ascii) : bool :=
  let n := nat_of_ascii c in
  ((9 <=? n)%nat && (n <=? 13)%nat) || (n =? 32)%nat.

Definition digit_of (c : ascii) : option Z :=
  let n := nat_of_ascii c in
  if ((48 <=? n)%nat && (n <=? 57)%nat) then Some (Z.of_nat n - 48) else None.

Fixpoint lstrip (s : list ascii) : list ascii :=
  match s with
  | c :: rest => if is_space c then lstrip rest else s
  | [] => []
  end.

Definition strip (s : list ascii) : list ascii :=
  reverse (lstrip (reverse (lstrip s))).

(** [digits acc after_digit s]: reads the rest of a literal; an underscore
    is accepted only between two digits. *)
Fixpoint digits (acc : Z) (after_digit : bool) (s : list ascii) : option Z :=
  match s with
  | [] => if after_digit then Some acc else None
  | c :: rest =>
      match digit_of c with
      | Some d => digits (10 * acc + d) true rest
      | None =>
          if (Ascii.eqb c "_" && after_digit)%bool then
            match rest with
            | c' :: _ => if digit_of c' is Some _ then digits acc false rest else None
            | [] => None
            end
          else None
      end
  end.

Definition int (s : string) : outcome Z :=
  let body := strip (String.list_ascii_of_string s) in
  let parsed :=
    match body with
    | c :: rest =>
        if Ascii.eqb c "-" then Z.opp <$> digits 0 false rest
        else if Ascii.eqb c "+" then digits 0 false rest
        else digits 0 false body
    | [] => None
    end in
  match parsed with
  | Some n => Returned n
  | None => Raised ValueError
  end.

End Py.

Import Py.

(** ** The tables *)

(** [convert_days]: the clock's weekday selects the price and the sold
    column of a potion. *)
Inductive day := mon | tue | wed | thu | fri | sat | sun.

Global Instance day_eq_dec : EqDecision day.
Proof. solve_decision. Defined.

Definition convert_days : list day := [mon; tue; wed; thu; fri; sat; sun].

Definition day_name (d : day) : string :=
  match d with
  | mon => "mon" | tue => "tue" | wed => "wed" | thu => "thu"
  | fri => "fri" | sat => "sat" | sun => "sun"
  end.

Record cart_row := {
  customer : string;
  payment : option string;
  global_inventory_transaction_id : option Z
}.

Record cart_item_row := {
  items_id : Z;
  ci_cart_id : Z;
  sku : string;
  quantity : Z
}.

(** A row of [potions]: the seven [*_price] and the seven [*_sold] columns
    are read and written through the day, as [getattr(potion, day +
    "_price")] does. *)
Record potion_row := {
  potion_type : list Z;
  price : day -> Z;
  sold : day -> Z
}.

Record potion_transaction_row := {
  pt_id : Z;
  pt_description : option string
}.

Record potion_entry_row := {
  potion_sku : string;
  change : Z;
  potion_transaction_id : Z
}.

Record global_inventory_transaction_row := {
  gt_id : Z;
  gt_description : option string
}.

Record global_inventory_entry_row := {
  change_gold : Z;
  ge_global_inventory_transaction_id : Z
}.

(** The identity sequences behind the generated ids.  PostgreSQL does not
    roll a sequence back. *)
Record sequences := {
  next_cart_id : Z;
  next_items_id : Z;
  next_potion_transaction_id : Z;
  next_global_inventory_transaction_id : Z
}.

Record DB := {
  carts : gmap Z cart_row;
  cart_items : list cart_item_row;
  potions : gmap string potion_row;
  potion_transactions : list potion_transaction_row;
  potion_entries : list potion_entry_row;
  global_inventory_transactions : list global_inventory_transaction_row;
  global_inventory_entries : list global_inventory_entry_row;
  seqs : sequences
}.

Definition set_carts (f : gmap Z cart_row -> gmap Z cart_row) (db : DB) : DB :=
  {| carts := f (carts db); cart_items := cart_items db; potions := potions db;
     potion_transactions := potion_transactions db;
     potion_entries := potion_entries db;
     global_inventory_transactions := global_inventory_transactions db;
     global_inventory_entries := global_inventory_entries db;
     seqs := seqs db |}.

Definition set_cart_items (f : list cart_item_row -> list cart_item_row) (db : DB) : DB :=
  {| carts := carts db; cart_items := f (cart_items db); potions := potions db;
     potion_transactions := potion_transactions db;
     potion_entries := potion_entries db;
     global_inventory_transactions := global_inventory_transactions db;
     global_inventory_entries := global_inventory_entries db;
     seqs := seqs db |}.

Definition set_potions (f : gmap string potion_row -> gmap string potion_row) (db : DB) : DB :=
  {| carts := carts db; cart_items := cart_items db; potions := f (potions db);
     potion_transactions := potion_transactions db;
     potion_entries := potion_entries db;
     global_inventory_transactions := global_inventory_transactions db;
     global_inventory_entries := global_inventory_entries db;
     seqs := seqs db |}.

Definition set_potion_ledger
    (t : potion_transaction_row) (e : potion_entry_row) (db : DB) : DB :=
  {| carts := carts db; cart_items := cart_items db; potions := potions db;
     potion_transactions := potion_transactions db ++ [t];
     potion_entries := potion_entries db ++ [e];
     global_inventory_transactions := global_inventory_transactions db;
     global_inventory_entries := global_inventory_entries db;
     seqs := seqs db |}.

Definition set_global_inventory_transactions
    (f : list global_inventory_transaction_row -> list global_inventory_transaction_row)
    (db : DB) : DB :=
  {| carts := carts db; cart_items := cart_items db; potions := potions db;
     potion_transactions := potion_transactions db;
     potion_entries := potion_entries db;
     global_inventory_transactions := f (global_inventory_transactions db);
     global_inventory_entries := global_inventory_entries db;
     seqs := seqs db |}.

Definition set_global_inventory_entries
    (f : list global_inventory_entry_row -> list global_inventory_entry_row)
    (db : DB) : DB :=
  {| carts := carts db; cart_items := cart_items db; potions := potions db;
     potion_transactions := potion_transactions db;
     potion_entries := potion_entries db;
     global_inventory_transactions := global_inventory_transactions db;
     global_inventory_entries := f (global_inventory_entries db);
     seqs := seqs db |}.

Definition set_seqs (f : sequences -> sequences) (db : DB) : DB :=
  {| carts := carts db; cart_items := cart_items db; potions := potions db;
     potion_transactions := potion_transactions db;
     potion_entries := potion_entries db;
     global_inventory_transactions := global_inventory_transactions db;
     global_inventory_entries := global_inventory_entries db;
     seqs := f (seqs db) |}.

(** What a transaction leaves behind when it is rolled back: the committed
    tables, and the sequences as far as the transaction advanced them. *)
Definition rollback (committed tx : DB) : DB :=
  set_seqs (fun _ => seqs tx) committed.

(** ** [src/api/carts.py] *)

Module Carts.

(** *** [search_orders]

    A row of the SELECT over [cart_items] joined with [carts],
    [global_inventory_transactions] and [global_inventory_entries]. *)
Record order_row := {
  line_item_id : Z;
  item_sku : string;
  customer_name : string;
  line_item_total : Z;
  timestamp : Z
}.

Record search_response := {
  previous : string;
  next : string;
  results : list order_row
}.

(** [LIMIT 6 OFFSET current] over the rows the statement selects.  The
    offset of PostgreSQL is a bigint: a negative one is refused, and so is
    one that does not fit in 64 bits. *)
Definition limit_6_offset (current : Z) (matching : list order_row)
    : outcome (list order_row) :=
  if (current <? 0) || (2 ^ 63 <=? current) then Raised DataError
  else Returned (take 6 (drop (Z.to_nat current) matching)).

(** The loop that copies the fetched rows into [results]. *)
Definition collect_results (cart_items : list order_row) : list order_row :=
  fold_left
    (fun results item =>
       if (length results <? 5)%nat then results ++ [item] else results)
    cart_items [].

(** [current = 0 if (search_page == "") else int(search_page)]. *)
Definition current_of (search_page : string) : outcome Z :=
  if String.eqb search_page "" then Returned 0 else int search_page.

(** [matching] stands for the rows that the FROM, JOIN, WHERE and ORDER BY
    clauses yield for the given filters and sort options, in their order;
    the function is the rest of the endpoint. *)
Definition search_orders (matching : list order_row) (search_page : string)
    : outcome search_response :=
  match current_of search_page with
  | Raised e => Raised e
  | Returned current =>
      match limit_6_offset current matching with
      | Raised e => Raised e
      | Returned cart_items =>
          let results := collect_results cart_items in
          let previous := current - 5 in
          let previous := if previous <? 0 then ""%string else str previous in
          let next := current + 5 in
          let next := if (length cart_items <? 6)%nat then ""%string else str next in
          Returned {| previous := previous; next := next; results := results |}
      end
  end.

(** *** [create_cart] *)
Definition create_cart (db : DB) (new_customer : string) : DB * outcome Z :=
  let cart_id := next_cart_id (seqs db) in
  let row := {| customer := new_customer; payment := None;
                global_inventory_transaction_id := None |} in
  let tx := set_carts (insert cart_id row) db in
  let tx := set_seqs (fun s =>
              {| next_cart_id := cart_id + 1;
                 next_items_id := next_items_id s;
                 next_potion_transaction_id := next_potion_transaction_id s;
                 next_global_inventory_transaction_id :=
                   next_global_inventory_transaction_id s |}) tx in
  (tx, Returned cart_id).

(** *** [get_cart] *)

(** [SELECT * FROM cart_items WHERE cart_id = :cart_id], in table order. *)
Definition select_cart_items (db : DB) (cart_id : Z) : list cart_item_row :=
  filter (fun ci => ci_cart_id ci = cart_id) (cart_items db).

(** [COALESCE(SUM(change), 0)] over the entries of one sku. *)
Definition num_potion (db : DB) (item_sku : string) : Z :=
  foldr Z.add 0
    (change <$> filter (fun e => potion_sku e = item_sku) (potion_entries db)).

(** One pass of the loop over the cart's rows: the text appended to
    [message]. *)
Definition render_item (d : day) (db : DB) (cart_item : cart_item_row)
    : outcome string :=
  match potions db !! sku cart_item with
  | None => Raised (AttributeError "potion_type")
  | Some potion =>
      Returned (" " +:+ str (quantity cart_item) +:+ " " +:+ sku cart_item
                +:+ " (" +:+ repr_list (potion_type potion) +:+ ") "
                +:+ "for " +:+ str (quantity cart_item * price potion d) +:+ " gold "
                +:+ "(" +:+ str (num_potion db (sku cart_item)) +:+ " remaining),")
  end.

Fixpoint render_items (d : day) (db : DB) (message : string)
    (cart_items : list cart_item_row) : outcome string :=
  match cart_items with
  | [] => Returned message
  | cart_item :: rest =>
      match render_item d db cart_item with
      | Raised e => Raised e
      | Returned text => render_items d db (message +:+ text) rest
      end
  end.

(** The result is [None] where the Python function falls off its end. *)
Definition get_cart (d : day) (db : DB) (cart_id : Z) : outcome (option string) :=
  match carts db !! cart_id with
  | Some cart =>
      let cart_items := select_cart_items db cart_id in
      match cart_items with
      | _ :: _ =>
          let message :=
            if truthy_str (payment cart)
            then "Cart #" +:+ str cart_id +:+ ": " +:+ customer cart +:+ " used "
                 +:+ default "None"%string (payment cart) +:+ " to buy:"
            else "Cart #" +:+ str cart_id +:+ ": " +:+ customer cart
                 +:+ " is seeking to buy:" in
          match render_items d db message cart_items with
          | Raised e => Raised e
          | Returned message => Returned (Some (drop_last message +:+ "."))
          end
      | [] => Returned None
      end
  | None =>
      Returned (Some ("Cart #" +:+ str cart_id +:+ " has not yet been created."))
  end.

(** *** [set_item_quantity]: one INSERT into [cart_items]. *)
Definition set_item_quantity (db : DB) (cart_id : Z) (item_sku : string)
    (cart_item_quantity : Z) : DB * outcome string :=
  let row := {| items_id := next_items_id (seqs db); ci_cart_id := cart_id;
                sku := item_sku; quantity := cart_item_quantity |} in
  let tx := set_cart_items (fun t => t ++ [row]) db in
  let tx := set_seqs (fun s =>
              {| next_cart_id := next_cart_id s;
                 next_items_id := next_items_id s + 1;
                 next_potion_transaction_id := next_potion_transaction_id s;
                 next_global_inventory_transaction_id :=
                   next_global_inventory_transaction_id s |}) tx in
  (tx, Returned "OK"%string).

(** *** [checkout] *)

Record checkout_response := {
  total_potions_bought : Z;
  total_gold_paid : Z
}.

(** The first statement: the CTE inserts a row into
    [global_inventory_transactions] (it runs whether or not the UPDATE finds
    a cart), the UPDATE marks the cart, and [.first().id] reads the new id
    from the row that RETURNING yields for the updated cart. *)
Definition settle (tx : DB) (cart_id : Z) (cart_payment : string)
    : DB * outcome Z :=
  let id := next_global_inventory_transaction_id (seqs tx) in
  let tx := set_global_inventory_transactions
              (fun t => t ++ [{| gt_id := id; gt_description := None |}]) tx in
  let tx := set_seqs (fun s =>
              {| next_cart_id := next_cart_id s;
                 next_items_id := next_items_id s;
                 next_potion_transaction_id := next_potion_transaction_id s;
                 next_global_inventory_transaction_id := id + 1 |}) tx in
  match carts tx !! cart_id with
  | None => (tx, Raised (AttributeError "id"))
  | Some c =>
      (set_carts (insert cart_id
                    {| customer := customer c; payment := Some cart_payment;
                       global_inventory_transaction_id := Some id |}) tx,
       Returned id)
  end.

(** [INSERT INTO potion_transactions ... INSERT INTO potion_entries]. *)
Definition insert_potion_entry (description : option string)
    (item_sku : string) (item_change : Z) (tx : DB) : DB :=
  let id := next_potion_transaction_id (seqs tx) in
  let tx := set_potion_ledger
              {| pt_id := id; pt_description := description |}
              {| potion_sku := item_sku; change := item_change;
                 potion_transaction_id := id |} tx in
  set_seqs (fun s =>
    {| next_cart_id := next_cart_id s;
       next_items_id := next_items_id s;
       next_potion_transaction_id := id + 1;
       next_global_inventory_transaction_id :=
         next_global_inventory_transaction_id s |}) tx.

(** [UPDATE potions SET {day}_sold = {day}_sold + :num_sold WHERE sku = :sku]. *)
Definition add_sold (d : day) (num_sold : Z) (p : potion_row) : potion_row :=
  {| potion_type := potion_type p;
     price := price p;
     sold := fun d' => if decide (d' = d) then sold p d' + num_sold else sold p d' |}.

Definition update_sold (d : day) (num_sold : Z) (item_sku : string) (tx : DB) : DB :=
  set_potions (alter (add_sold d num_sold) item_sku) tx.

(** The loop over the rows of the cart.  [tx] is the state that the
    handler's own connection sees.  [get_cart] opens a connection of its own
    ([with db.engine.begin()] in its body), and another connection sees the
    committed tables only: it reads [committed]. *)
Fixpoint checkout_items (d : day) (committed : DB) (cart_id : Z)
    (cart : list cart_item_row) (total_potions_bought total_gold_paid : Z)
    (tx : DB) : DB * outcome (Z * Z) :=
  match cart with
  | [] => (tx, Returned (total_potions_bought, total_gold_paid))
  | cart_items :: rest =>
      match potions tx !! sku cart_items with
      | None => (tx, Raised (AttributeError (day_name d +:+ "_price")))
      | Some potion =>
          let total_potions_bought := total_potions_bought + quantity cart_items in
          let total_gold_paid :=
            total_gold_paid + quantity cart_items * price potion d in
          match get_cart d committed cart_id with
          | Raised e => (tx, Raised e)
          | Returned description =>
              let tx := insert_potion_entry description (sku cart_items)
                          (- quantity cart_items) tx in
              let tx := update_sold d (quantity cart_items) (sku cart_items) tx in
              checkout_items d committed cart_id rest
                total_potions_bought total_gold_paid tx
          end
      end
  end.

(** [UPDATE global_inventory_transactions SET description = ... WHERE id = ...]. *)
Definition set_description (description : option string) (transaction_id : Z)
    (tx : DB) : DB :=
  set_global_inventory_transactions
    (fmap (fun t => if decide (gt_id t = transaction_id)
                    then {| gt_id := gt_id t; gt_description := description |}
                    else t)) tx.

Definition insert_gold_entry (gold : Z) (transaction_id : Z) (tx : DB) : DB :=
  set_global_inventory_entries
    (fun t => t ++ [{| change_gold := gold;
                       ge_global_inventory_transaction_id := transaction_id |}]) tx.

(** The handler.  The first component is the committed database after the
    call: the transaction's state when it commits, the rolled-back one when
    an exception leaves the [with] block. *)
Definition checkout (d : day) (db : DB) (cart_id : Z) (cart_payment : string)
    : DB * outcome checkout_response :=
  match settle db cart_id cart_payment with
  | (tx, Raised e) => (rollback db tx, Raised e)
  | (tx, Returned global_transaction_id) =>
      let cart := select_cart_items tx cart_id in
      match checkout_items d db cart_id cart 0 0 tx with
      | (tx, Raised e) => (rollback db tx, Raised e)
      | (tx, Returned (total_potions_bought, total_gold_paid)) =>
          match get_cart d db cart_id with
          | Raised e => (rollback db tx, Raised e)
          | Returned description =>
              let tx := set_description description global_transaction_id tx in
              let tx := insert_gold_entry total_gold_paid global_transaction_id tx in
              (tx, Returned {| total_potions_bought := total_potions_bought;
                               total_gold_paid := total_gold_paid |})
          end
      end
  end.

End Carts.

(** ** [src/api/catalog.py] *)

Module Catalog.

(** A row of [potion_inventory] with the columns the endpoint reads. *)
Record inventory_row := {
  inv_sku : string;
  inv_num_potion : Z;
  inv_price : Z;
  inv_potion_type : list Z
}.

Record catalog_entry := {
  c_sku : string;
  c_name : string;
  c_quantity : Z;
  c_price : Z;
  c_potion_type : list Z
}.

(** [ORDER BY num_potion DESC]: the left row may come first. *)
Definition num_potion_desc (r1 r2 : inventory_row) : Prop :=
  inv_num_potion r2 <= inv_num_potion r1.

Global Instance num_potion_desc_dec r1 r2 : Decision (num_potion_desc r1 r2).
Proof. unfold num_potion_desc. apply _. Defined.

Definition order_by_num_potion_desc (t : list inventory_row) : list inventory_row :=
  merge_sort num_potion_desc t.

Definition entry_of (potion : inventory_row) : catalog_entry :=
  {| c_sku := inv_sku potion;
     c_name := inv_sku potion;
     c_quantity := if inv_num_potion potion <=? 10000
                   then inv_num_potion potion else 10000;
     c_price := inv_price potion;
     c_potion_type := inv_potion_type potion |}.

(** The loop over the fetched rows. *)
Definition fill_catalog (rows : list inventory_row) : list catalog_entry :=
  fold_left
    (fun catalog potion =>
       if ((length catalog <? 6)%nat && negb (inv_num_potion potion =? 0))%bool
       then catalog ++ [entry_of potion] else catalog)
    rows [].

Definition get_catalog (potion_inventory : list inventory_row) : list catalog_entry :=
  fill_catalog (order_by_num_potion_desc potion_inventory).

End Catalog.

Import Carts Catalog.

(** ** Requests against one database *)

Inductive request :=
  | CreateCart (new_customer : string)
  | SetItemQuantity (cart_id : Z) (item_sku : string) (cart_item_quantity : Z)
  | Checkout (d : day) (cart_id : Z) (cart_payment : string).

(** The committed database after a request was served. *)
Definition serve (db : DB) (r : request) : DB :=
  match r with
  | CreateCart c => fst (create_cart db c)
  | SetItemQuantity cart_id item_sku q => fst (set_item_quantity db cart_id item_sku q)
  | Checkout d cart_id p => fst (checkout d db cart_id p)
  end.

Definition serve_all (db : DB) (rs : list request) : DB := fold_left serve rs db.

(** ** Vocabulary of the statements *)

(** Every row of the cart names a potion of the [potions] table. *)
Definition known_skus (db : DB) (cart : list cart_item_row) : Prop :=
  Forall (fun ci => is_Some (potions db !! sku ci)) cart.

Definition total_quantity (cart : list cart_item_row) : Z :=
  foldr Z.add 0 (quantity <$> cart).

(** The [{day}_price] column of a sku. *)
Definition price_of (d : day) (db : DB) (item_sku : string) : Z :=
  match potions db !! item_sku with
  | Some p => price p d
  | None => 0
  end.

Definition total_gold (d : day) (db : DB) (cart : list cart_item_row) : Z :=
  foldr Z.add 0 ((fun ci => quantity ci * price_of d db (sku ci)) <$> cart).

(** The quantity a cart holds of one sku, over all its rows. *)
Definition quantity_of (item_sku : string) (cart : list cart_item_row) : Z :=
  total_quantity (filter (fun ci => sku ci = item_sku) cart).

(** A cart that [checkout] has marked. *)
Definition settled (db : DB) (cart_id : Z) : Prop :=
  exists c p g, carts db !! cart_id = Some c /\ payment c = Some p
                /\ global_inventory_transaction_id c = Some g.

(** What one pass of the loop of [checkout] writes. *)
Definition item_step (d : day) (description : option string) (tx : DB)
    (ci : cart_item_row) : DB :=
  update_sold d (quantity ci) (sku ci)
    (insert_potion_entry description (sku ci) (- quantity ci) tx).

(** The database a returning checkout commits: the cart marked, one pass of
    the loop per row of the cart, the description written, the gold entry
    appended. *)
Definition checked_out (d : day) (db : DB) (cart_id : Z) (cart_payment : string)
    (description : option string) : DB :=
  let cart := select_cart_items db cart_id in
  let id := next_global_inventory_transaction_id (seqs db) in
  insert_gold_entry (total_gold d db cart) id
    (set_description description id
       (fold_left (item_step d description) cart
          (fst (settle db cart_id cart_payment)))).

(** The ledger tables. *)
Definition ledger (db : DB) :=
  (global_inventory_transactions db, global_inventory_entries db,
   potion_transactions db, potion_entries db).

(** The rows that a checkout appends to the potion ledger, the first one
    under the transaction id [first_id]. *)
Definition new_potion_transactions (first_id : Z) (description : option string)
    (cart : list cart_item_row) : list potion_transaction_row :=
  imap (fun i _ => {| pt_id := first_id + Z.of_nat i;
                      pt_description := description |}) cart.

Definition new_potion_entries (first_id : Z) (cart : list cart_item_row)
    : list potion_entry_row :=
  imap (fun i ci => {| potion_sku := sku ci; change := - quantity ci;
                       potion_transaction_id := first_id + Z.of_nat i |}) cart.

(** The potions a request sold of one sku: the cart's quantity when the
    request is a checkout that returns, nothing otherwise. *)
Definition sold_by (item_sku : string) (db : DB) (r : request) : Z :=
  match r with
  | Checkout d cart_id p =>
      match snd (checkout d db cart_id p) with
      | Returned _ => quantity_of item_sku (select_cart_items db cart_id)
      | Raised _ => 0
      end
  | _ => 0
  end.

Fixpoint units_sold (item_sku : string) (db : DB) (rs : list request) : Z :=
  match rs with
  | [] => 0
  | r :: rest => sold_by item_sku db r + units_sold item_sku (serve db r) rest
  end.

(** The three phrasings of [get_cart]. *)
Definition not_created_phrase (cart_id : Z) : string :=
  "Cart #" +:+ str cart_id +:+ " has not yet been created.".

Definition staged_header (cart_id : Z) (cart_customer : string) : string :=
  "Cart #" +:+ str cart_id +:+ ": " +:+ cart_customer +:+ " is seeking to buy:".

Definition settled_header (cart_id : Z) (cart_customer cart_payment : string)
    : string :=
  "Cart #" +:+ str cart_id +:+ ": " +:+ cart_customer +:+ " used "
  +:+ cart_payment +:+ " to buy:".

(** The row of [global_inventory_transactions] after the UPDATE that writes
    the description of transaction [transaction_id]. *)
Definition describe (description : option string) (transaction_id : Z)
    (t : global_inventory_transaction_row) : global_inventory_transaction_row :=
  if decide (gt_id t = transaction_id)
  then {| gt_id := gt_id t; gt_description := description |} else t.

(** A row of [potion_inventory] that the catalog may list. *)
Definition in_stock (r : inventory_row) : Prop := inv_num_potion r <> 0.

Global Instance known_skus_dec db cart : Decision (known_skus db cart).
Proof. unfold known_skus. apply _. Defined.

(** ** A small shop for the examples *)

Module Sample.

Definition red : potion_row :=
  {| potion_type := [100; 0; 0; 0]; price := fun _ => 50; sold := fun _ => 0 |}.

Definition blue : potion_row :=
  {| potion_type := [0; 0; 100; 0];
     price := fun d => if decide (d = sun) then 70 else 60;
     sold := fun _ => 0 |}.

(** No carts, no ledger rows, two potions. *)
Definition shop : DB :=
  {| carts := ∅; cart_items := [];
     potions := <["RED_POTION"%string := red]> {["BLUE_POTION"%string := blue]};
     potion_transactions := []; potion_entries := [];
     global_inventory_transactions := []; global_inventory_entries := [];
     seqs := {| next_cart_id := 1; next_items_id := 1;
                next_potion_transaction_id := 1;
                next_global_inventory_transaction_id := 1 |} |}.

(** Alice's cart 1 holds three red potions; cart 2 is empty. *)
Definition staged : DB :=
  serve_all shop [CreateCart "Alice"; SetItemQuantity 1 "RED_POTION" 3;
                  CreateCart "Bob"].

Definition paid : DB := serve staged (Checkout mon 1 "credit_card").

(** Bob asks for three blue potions, then for five. *)
Definition twice : DB :=
  serve_all staged [SetItemQuantity 2 "BLUE_POTION" 3;
                    SetItemQuantity 2 "BLUE_POTION" 5].

(** Alice pays with the empty string. *)
Definition paid_with_nothing : DB := serve staged (Checkout mon 1 "").

(** Bob checks his empty cart out. *)
Definition paid_empty : DB := serve staged (Checkout mon 2 "gold").

Definition order (n : Z) : order_row :=
  {| line_item_id := n; item_sku := "RED_POTION"; customer_name := "Alice";
     line_item_total := 150; timestamp := 1000 + n |}.

Definition twelve_orders : list order_row :=
  order <$> [1; 2; 3; 4; 5; 6; 7; 8; 9; 10; 11; 12].

Definition stock (s : string) (n : Z) : inventory_row :=
  {| inv_sku := s; inv_num_potion := n; inv_price := 50;
     inv_potion_type := [100; 0; 0; 0] |}.

Definition inventory : list inventory_row :=
  [stock "A" 3; stock "B" 15000; stock "C" 0; stock "D" (-2); stock "E" 7;
   stock "F" 10000; stock "G" 1; stock "H" 12; stock "I" 5].

End Sample.

(** ** [src/creating_database.py] *)

Module CreatingDatabase.

(** [[i for i in range(0, 101, x)]]: a zero step is refused, a negative one
    gives nothing. *)
Definition each_ml (x : Z) : outcome (list Z) :=
  if x =? 0 then Raised ValueError
  else if x <? 0 then Returned []
  else Returned ((fun i => Z.of_nat i * x) <$> seq 0 (Z.to_nat (100 / x + 1))).

(** [itertools.product(each_ml, repeat=4)], in its order. *)
Definition product4 (l : list Z) : list (list Z) :=
  a ← l; b ← l; c ← l; d ← l; [[a; b; c; d]].

Definition sum (i : list Z) : Z := foldr Z.add 0 i.

Definition gen_potion_types (x : Z) : outcome (list (list Z)) :=
  match each_ml x with
  | Raised e => Raised e
  | Returned each_ml =>
      let combinations := product4 each_ml in
      Returned (filter (fun i => sum i = 100) combinations)
  end.

End CreatingDatabase.

(** ** Vocabulary of further statements *)

(** The gold balance: the sum of the gold entries. *)
Definition gold_balance (db : DB) : Z :=
  foldr Z.add 0 (change_gold <$> global_inventory_entries db).

(** The gold a request was paid: what a returning checkout reports. *)
Definition gold_paid_by (db : DB) (r : request) : Z :=
  match r with
  | Checkout d cart_id p =>
      match snd (checkout d db cart_id p) with
      | Returned response => total_gold_paid response
      | Raised _ => 0
      end
  | _ => 0
  end.

Fixpoint gold_paid (db : DB) (rs : list request) : Z :=
  match rs with
  | [] => 0
  | r :: rest => gold_paid_by db r + gold_paid (serve db r) rest
  end.

(** All seven sold counters of a potion together. *)
Definition sold_in_week (p : potion_row) : Z :=
  foldr Z.add 0 (sold p <$> convert_days).

(** No sequence has moved backwards. *)
Definition seqs_le (s1 s2 : sequences) : Prop :=
  next_cart_id s1 <= next_cart_id s2
  /\ next_items_id s1 <= next_items_id s2
  /\ next_potion_transaction_id s1 <= next_potion_transaction_id s2
  /\ next_global_inventory_transaction_id s1
     <= next_global_inventory_transaction_id s2.

(** Every generated id is below its sequence and occurs once. *)
Definition ids_unique (db : DB) : Prop :=
  (forall cart_id, is_Some (carts db !! cart_id) -> cart_id < next_cart_id (seqs db))
  /\ Forall (fun ci => items_id ci < next_items_id (seqs db)) (cart_items db)
  /\ NoDup (items_id <$> cart_items db)
  /\ Forall (fun t => pt_id t < next_potion_transaction_id (seqs db))
       (potion_transactions db)
  /\ NoDup (pt_id <$> potion_transactions db)
  /\ Forall (fun t => gt_id t < next_global_inventory_transaction_id (seqs db))
       (global_inventory_transactions db)
  /\ NoDup (gt_id <$> global_inventory_transactions db).

(** The n-th entry of a ledger belongs to its n-th transaction. *)
Definition lockstep (db : DB) : Prop :=
  potion_transaction_id <$> potion_entries db = pt_id <$> potion_transactions db
  /\ ge_global_inventory_transaction_id <$> global_inventory_entries db
     = gt_id <$> global_inventory_transactions db.

(** The transaction a cart refers to is in the table. *)
Definition references_valid (db : DB) : Prop :=
  forall cart_id c g,
    carts db !! cart_id = Some c ->
    global_inventory_transaction_id c = Some g ->
    g ∈ gt_id <$> global_inventory_transactions db.

Definition consistent (db : DB) : Prop :=
  ids_unique db /\ lockstep db /\ references_valid db.

(** The quantity the catalog shows for a stock. *)
Definition shown (n : Z) : Z := if n <=? 10000 then n else 10000.


(** ** The loop of [checkout] *)

Section CheckoutLoop.
Variables (d : day) (description : option string).

Lemma item_step_carts tx ci : carts (item_step d description tx ci) = carts tx.
Proof. reflexivity. Qed.

Lemma item_step_potions tx ci :
  potions (item_step d description tx ci)
  = alter (add_sold d (quantity ci)) (sku ci) (potions tx).
Proof. reflexivity. Qed.

Lemma price_of_item_step tx ci s :
  price_of d (item_step d description tx ci) s = price_of d tx s.
Proof.
  unfold price_of. rewrite item_step_potions, lookup_alter.
  case_decide; subst; [|done]. by destruct (potions tx !! _).
Qed.

Lemma known_item_step tx ci s :
  is_Some (potions (item_step d description tx ci) !! s) <-> is_Some (potions tx !! s).
Proof.
  rewrite item_step_potions, lookup_alter.
  case_decide; subst; [|done]. by rewrite fmap_is_Some.
Qed.

Lemma known_skus_item_step tx ci cart :
  known_skus (item_step d description tx ci) cart <-> known_skus tx cart.
Proof.
  unfold known_skus. rewrite !Forall_forall.
  split; intros H x Hx; apply known_item_step, H, Hx || apply (known_item_step tx ci), H, Hx.
Qed.

Lemma total_gold_item_step tx ci cart :
  total_gold d (item_step d description tx ci) cart = total_gold d tx cart.
Proof.
  unfold total_gold. f_equal. apply list_fmap_ext; intros _ x _.
  by rewrite price_of_item_step.
Qed.

(** The loop returns when every sku is known and the rendering returns. *)
Lemma checkout_items_returns committed cart_id cart a b tx :
  get_cart d committed cart_id = Returned description ->
  known_skus tx cart ->
  checkout_items d committed cart_id cart a b tx
  = (fold_left (item_step d description) cart tx,
     Returned (a + total_quantity cart, b + total_gold d tx cart)).
Proof.
  intros Hget. revert a b tx.
  induction cart as [|ci rest IH]; intros a b tx Hknown; simpl.
  - by rewrite !Z.add_0_r.
  - apply Forall_cons in Hknown as [[p Hp] Hrest].
    rewrite Hp, Hget.
    change (update_sold d (quantity ci) (sku ci)
              (insert_potion_entry description (sku ci) (- quantity ci) tx))
      with (item_step d description tx ci).
    rewrite IH by by apply known_skus_item_step.
    rewrite total_gold_item_step.
    unfold total_quantity, total_gold, price_of; simpl. rewrite Hp.
    by rewrite !Z.add_assoc.
Qed.
End CheckoutLoop.

(** The loop raises as soon as one sku is unknown. *)
Lemma checkout_items_raises d committed cart_id cart a b tx :
  ~ known_skus tx cart ->
  exists tx' e, checkout_items d committed cart_id cart a b tx = (tx', Raised e).
Proof.
  revert a b tx. induction cart as [|ci rest IH]; intros a b tx Hunknown; simpl.
  - destruct Hunknown. constructor.
  - destruct (potions tx !! sku ci) as [p|] eqn:Hp; [|eauto].
    destruct (get_cart d committed cart_id) as [description|e]; [|eauto].
    apply IH. intros Hrest. apply Hunknown. constructor; [by rewrite Hp|].
    by eapply known_skus_item_step, Hrest.
Qed.

Section Ledger.
Variables (d : day) (description : option string).

Lemma fold_item_step_tables cart tx :
  let tx' := fold_left (item_step d description) cart tx in
  carts tx' = carts tx /\ cart_items tx' = cart_items tx
  /\ global_inventory_transactions tx' = global_inventory_transactions tx
  /\ global_inventory_entries tx' = global_inventory_entries tx.
Proof.
  revert tx. induction cart as [|ci rest IH]; intros tx; simpl; [done|].
  destruct (IH (item_step d description tx ci)) as (-> & -> & -> & ->). done.
Qed.

Lemma fold_item_step_potion_ledger cart tx :
  let tx' := fold_left (item_step d description) cart tx in
  let first_id := next_potion_transaction_id (seqs tx) in
  potion_transactions tx'
  = potion_transactions tx ++ new_potion_transactions first_id description cart
  /\ potion_entries tx' = potion_entries tx ++ new_potion_entries first_id cart
  /\ next_potion_transaction_id (seqs tx') = first_id + Z.of_nat (length cart)
  /\ next_global_inventory_transaction_id (seqs tx')
     = next_global_inventory_transaction_id (seqs tx).
Proof.
  revert tx. induction cart as [|ci rest IH]; intros tx; simpl.
  - rewrite !app_nil_r. repeat split; try done; lia.
  - destruct (IH (item_step d description tx ci)) as (-> & -> & -> & ->).
    unfold new_potion_transactions, new_potion_entries; simpl.
    rewrite <- !app_assoc; simpl. rewrite !Z.add_0_r.
    repeat split; try lia.
    + do 2 f_equal. apply imap_ext; intros i x _; simpl. f_equal; lia.
    + do 2 f_equal. apply imap_ext; intros i x _; simpl. f_equal; lia.
Qed.

Lemma quantity_of_cons s ci rest :
  quantity_of s (ci :: rest)
  = (if decide (sku ci = s) then quantity ci else 0) + quantity_of s rest.
Proof.
  unfold quantity_of, total_quantity. rewrite filter_cons. cbn beta.
  destruct (decide (sku ci = s)); simpl; [reflexivity | lia].
Qed.

(** The sold counters after the loop: each potion's counter of the day has
    grown by the quantity the cart holds of it. *)
Lemma fold_item_step_potions cart tx s :
  match potions tx !! s with
  | None => potions (fold_left (item_step d description) cart tx) !! s = None
  | Some p =>
      exists p', potions (fold_left (item_step d description) cart tx) !! s = Some p'
        /\ potion_type p' = potion_type p /\ price p' = price p
        /\ forall d', sold p' d'
             = sold p d' + (if decide (d' = d) then quantity_of s cart else 0)
  end.
Proof.
  revert tx. induction cart as [|ci rest IH]; intros tx; simpl.
  - destruct (potions tx !! s) as [p|]; [|done].
    exists p. do 3 (split; [done|]). intros d'.
    unfold quantity_of, total_quantity; simpl. case_decide; lia.
  - specialize (IH (item_step d description tx ci)).
    rewrite item_step_potions, lookup_alter in IH.
    destruct (decide (sku ci = s)) as [Heq|Hne].
    + rewrite Heq in IH. destruct (potions tx !! s) as [p|]; simpl in IH; [|done].
      destruct IH as (p' & -> & Ht & Hp & Hs). exists p'. do 3 (split; [done|]).
      intros d'. rewrite Hs, quantity_of_cons. simpl.
      repeat case_decide; try done; lia.
    + destruct (potions tx !! s) as [p|]; [|done].
      destruct IH as (p' & -> & Ht & Hp & Hs). exists p'. do 3 (split; [done|]).
      intros d'. rewrite Hs, quantity_of_cons.
      repeat case_decide; try done; lia.
Qed.

Lemma num_potion_item_step tx ci s :
  num_potion (item_step d description tx ci) s
  = num_potion tx s - (if decide (sku ci = s) then quantity ci else 0).
Proof.
  unfold num_potion; simpl. rewrite filter_app, fmap_app, foldr_app.
  rewrite filter_cons, filter_nil; simpl.
  generalize (change <$> filter (λ e, potion_sku e = s) (potion_entries tx)).
  intros l. case_decide; simpl.
  - induction l; simpl; lia.
  - lia.
Qed.

Lemma num_potion_fold_item_step cart tx s :
  num_potion (fold_left (item_step d description) cart tx) s
  = num_potion tx s - quantity_of s cart.
Proof.
  revert tx. induction cart as [|ci rest IH]; intros tx; simpl.
  - unfold quantity_of, total_quantity; simpl; lia.
  - rewrite IH, num_potion_item_step, quantity_of_cons. lia.
Qed.
End Ledger.

(** [get_cart] returns when every sku of the cart is known. *)
Lemma render_items_returns d db message cart :
  known_skus db cart -> exists text, render_items d db message cart = Returned text.
Proof.
  revert message. induction cart as [|ci rest IH]; intros message Hknown; simpl.
  - eauto.
  - apply Forall_cons in Hknown as [[p Hp] Hrest].
    unfold render_item. rewrite Hp. by apply IH.
Qed.

Lemma get_cart_returns d db cart_id :
  known_skus db (select_cart_items db cart_id) ->
  exists description, get_cart d db cart_id = Returned description.
Proof.
  intros Hknown. unfold get_cart.
  destruct (carts db !! cart_id) as [c|]; [|eauto].
  destruct (select_cart_items db cart_id) as [|ci rest] eqn:Hcart; [eauto|].
  edestruct (render_items_returns d db) as [text ->]; [exact Hknown|eauto].
Qed.

Lemma get_cart_raises d db cart_id c :
  carts db !! cart_id = Some c ->
  ~ known_skus db (select_cart_items db cart_id) ->
  exists e, get_cart d db cart_id = Raised e.
Proof.
  intros Hc Hunknown. unfold get_cart. rewrite Hc.
  destruct (select_cart_items db cart_id) as [|ci rest] eqn:Hcart.
  { destruct Hunknown. constructor. }
  assert (forall message cart, ~ known_skus db cart ->
            exists e, render_items d db message cart = Raised e) as Hraise.
  { intros message cart; revert message.
    induction cart as [|x l IH]; intros message Hl; simpl.
    - destruct Hl; constructor.
    - unfold render_item. destruct (potions db !! sku x) as [p|] eqn:Hp; [|eauto].
      apply IH. intros Hrest. apply Hl. constructor; [by rewrite Hp|done]. }
  edestruct Hraise as [e ->]; [exact Hunknown|eauto].
Qed.

Lemma settle_found db cart_id pay c :
  carts db !! cart_id = Some c ->
  let id := next_global_inventory_transaction_id (seqs db) in
  exists tx, settle db cart_id pay = (tx, Returned id)
    /\ carts tx = <[cart_id := {| customer := customer c; payment := Some pay;
                                  global_inventory_transaction_id := Some id |}]>
                    (carts db)
    /\ cart_items tx = cart_items db /\ potions tx = potions db
    /\ potion_transactions tx = potion_transactions db
    /\ potion_entries tx = potion_entries db
    /\ global_inventory_transactions tx
       = global_inventory_transactions db ++ [{| gt_id := id; gt_description := None |}]
    /\ global_inventory_entries tx = global_inventory_entries db
    /\ next_potion_transaction_id (seqs tx) = next_potion_transaction_id (seqs db).
Proof.
  intros Hc. unfold settle; simpl. rewrite Hc. eexists. by repeat split.
Qed.

Lemma settle_missing db cart_id pay :
  carts db !! cart_id = None ->
  exists tx, settle db cart_id pay = (tx, Raised (AttributeError "id")).
Proof.
  intros Hc. unfold settle; simpl. rewrite Hc. eauto.
Qed.

(** A checkout of an existing cart whose skus are all known returns, and
    commits [checked_out]. *)
Lemma checkout_returns d db cart_id pay c description :
  carts db !! cart_id = Some c ->
  known_skus db (select_cart_items db cart_id) ->
  get_cart d db cart_id = Returned description ->
  checkout d db cart_id pay
  = (checked_out d db cart_id pay description,
     Returned {| total_potions_bought := total_quantity (select_cart_items db cart_id);
                 total_gold_paid := total_gold d db (select_cart_items db cart_id) |}).
Proof.
  intros Hc Hknown Hget. unfold checkout, checked_out.
  destruct (settle_found db cart_id pay c Hc) as (tx & Hsettle & _ & Hitems & Hpotions & _).
  rewrite Hsettle; simpl.
  assert (select_cart_items tx cart_id = select_cart_items db cart_id) as ->
    by (unfold select_cart_items; by rewrite Hitems).
  assert (known_skus tx (select_cart_items db cart_id)) as Hknown'
    by (unfold known_skus; by rewrite Hpotions).
  rewrite (checkout_items_returns d description db cart_id _ 0 0 tx Hget Hknown').
  rewrite Hget. rewrite !Z.add_0_l.
  assert (total_gold d tx (select_cart_items db cart_id)
          = total_gold d db (select_cart_items db cart_id)) as ->
    by (unfold total_gold, price_of; by rewrite Hpotions).
  reflexivity.
Qed.

(** Any other checkout raises and is rolled back. *)
Lemma checkout_raises d db cart_id pay :
  carts db !! cart_id = None \/ ~ known_skus db (select_cart_items db cart_id) ->
  exists tx e, checkout d db cart_id pay = (rollback db tx, Raised e).
Proof.
  intros Hbad. unfold checkout.
  destruct (carts db !! cart_id) as [c|] eqn:Hc.
  - destruct Hbad as [|Hunknown]; [done|].
    destruct (settle_found db cart_id pay c Hc) as (tx & -> & _ & Hitems & Hpotions & _).
    assert (select_cart_items tx cart_id = select_cart_items db cart_id) as ->
      by (unfold select_cart_items; by rewrite Hitems).
    edestruct (checkout_items_raises d db cart_id
                 (select_cart_items db cart_id) 0 0 tx) as (tx' & e & ->); [|eauto].
    unfold known_skus. by rewrite Hpotions.
  - destruct (settle_missing db cart_id pay Hc) as (tx & ->). eauto.
Qed.

Lemma rollback_tables db tx :
  carts (rollback db tx) = carts db /\ cart_items (rollback db tx) = cart_items db
  /\ potions (rollback db tx) = potions db /\ ledger (rollback db tx) = ledger db.
Proof. done. Qed.

(** The two cases cover every call. *)
Lemma checkout_cases d db cart_id pay :
  (exists c description,
      carts db !! cart_id = Some c
      /\ known_skus db (select_cart_items db cart_id)
      /\ get_cart d db cart_id = Returned description
      /\ checkout d db cart_id pay
         = (checked_out d db cart_id pay description,
            Returned {| total_potions_bought :=
                          total_quantity (select_cart_items db cart_id);
                        total_gold_paid :=
                          total_gold d db (select_cart_items db cart_id) |}))
  \/ (exists tx e, checkout d db cart_id pay = (rollback db tx, Raised e)).
Proof.
  destruct (carts db !! cart_id) as [c|] eqn:Hc;
    [|right; apply checkout_raises; by left].
  destruct (decide (known_skus db (select_cart_items db cart_id))) as [Hknown|Hunknown];
    [|right; apply checkout_raises; by right].
  left. destruct (get_cart_returns d db cart_id Hknown) as [description Hget].
  exists c, description. eauto using checkout_returns.
Qed.

(** *** Cursors *)

Lemma digit_of_pretty_N_char x :
  (x < 10)%N -> digit_of (pretty_N_char x) = Some (Z.of_N x).
Proof.
  intros Hx.
  assert (x = 0 ∨ x = 1 ∨ x = 2 ∨ x = 3 ∨ x = 4 ∨ x = 5 ∨ x = 6 ∨ x = 7
          ∨ x = 8 ∨ x = 9)%N as Hcases by lia.
  repeat (destruct Hcases as [->|Hcases]; [reflexivity|]). by subst.
Qed.

Lemma digit_of_plain c n :
  digit_of c = Some n ->
  is_space c = false /\ Ascii.eqb c "-" = false /\ Ascii.eqb c "+" = false
  /\ Ascii.eqb c "_" = false.
Proof.
  destruct c as [[] [] [] [] [] [] [] []]; vm_compute; intros; try done.
Qed.

(** The characters [pretty_N_go] puts in front of [s] are digits, and
    reading them back gives the number. *)
Lemma pretty_N_go_chars x s :
  exists ds, String.list_ascii_of_string (pretty_N_go x s)
             = ds ++ String.list_ascii_of_string s
    /\ Forall (fun c => is_Some (digit_of c)) ds
    /\ ((0 < x)%N -> ds <> [])
    /\ forall b rest, digits 0 b (ds ++ rest)
                      = digits (Z.of_N x) (b || (0 <? x)%N) rest.
Proof.
  revert s. induction (N.lt_wf_0 x) as [x _ IH]; intros s.
  destruct (decide (0 < x)%N) as [Hpos|Hzero].
  - rewrite pretty_N_go_step by done.
    destruct (IH (x `div` 10)%N (N.div_lt x 10 Hpos eq_refl)
                 (String (pretty_N_char (x `mod` 10)) s))
      as (ds & Hds & Hdigits & _ & Hread).
    exists (ds ++ [pretty_N_char (x `mod` 10)]).
    assert (digit_of (pretty_N_char (x `mod` 10)) = Some (Z.of_N (x `mod` 10)))
      as Hlast by (apply digit_of_pretty_N_char, N.mod_lt; lia).
    split; [by rewrite Hds, <- app_assoc|].
    split; [apply Forall_app; split; [done|]; constructor; [by rewrite Hlast|done]|].
    split; [by destruct ds|].
    intros b rest. rewrite <- app_assoc, Hread. simpl. rewrite Hlast.
    replace (0 <? x)%N with true by (symmetry; by apply N.ltb_lt).
    rewrite orb_true_r. f_equal.
    rewrite (N.div_mod x 10) at 3 by done. lia.
  - assert (x = 0%N) as -> by lia. exists []. rewrite pretty_N_go_0.
    repeat split; [done|lia|]. intros b rest. simpl. by rewrite orb_false_r.
Qed.

Lemma lstrip_plain l :
  Forall (fun c => is_space c = false) l -> lstrip l = l.
Proof. destruct 1 as [|c l Hc _]; simpl; [done|by rewrite Hc]. Qed.

Lemma strip_plain l :
  Forall (fun c => is_space c = false) l -> strip l = l.
Proof.
  intros Hl. unfold strip. rewrite (lstrip_plain l Hl).
  rewrite lstrip_plain by by apply Forall_reverse. apply reverse_involutive.
Qed.

(** [int(str(n)) = n] for the offsets the endpoint hands out. *)
Lemma int_str n : 0 <= n -> int (str n) = Returned n.
Proof.
  intros Hn. destruct n as [|p|p]; [reflexivity| |lia].
  unfold int, str, pretty, pretty_Z, pretty, pretty_positive, pretty, pretty_N.
  rewrite decide_False by done.
  destruct (pretty_N_go_chars (N.pos p) "") as (ds & -> & Hdigits & Hne & Hread).
  simpl. rewrite app_nil_r.
  assert (Forall (fun c => is_space c = false) ds) as Hplain.
  { eapply Forall_impl; [exact Hdigits|]. intros c [n Hc]. by eapply digit_of_plain. }
  rewrite (strip_plain ds Hplain).
  destruct ds as [|c ds]; [by destruct Hne|].
  apply Forall_cons in Hdigits as [[n Hc] _].
  destruct (digit_of_plain c n Hc) as (_ & -> & -> & _).
  specialize (Hread false []). rewrite app_nil_r in Hread. rewrite Hread. done.
Qed.

Lemma current_of_str n : 0 <= n -> current_of (str n) = Returned n.
Proof.
  intros Hn. unfold current_of.
  destruct (String.eqb (str n) "") eqn:Hempty; [|by apply int_str].
  apply String.eqb_eq in Hempty. pose proof (int_str n Hn) as Hint.
  rewrite Hempty in Hint. discriminate Hint.
Qed.

(** *** The page *)

Lemma collect_results_acc rows acc :
  fold_left (fun results (item : order_row) =>
               if (length results <? 5)%nat then results ++ [item] else results)
            rows acc
  = acc ++ take (5 - length acc) rows.
Proof.
  revert acc. induction rows as [|x rows IH]; intros acc; simpl.
  - by rewrite take_nil, app_nil_r.
  - destruct (length acc <? 5)%nat eqn:Hlen.
    + apply Nat.ltb_lt in Hlen. rewrite IH, length_app; simpl.
      replace (5 - length acc)%nat with (S (5 - (length acc + 1)))%nat by lia.
      by rewrite <- app_assoc.
    + apply Nat.ltb_ge in Hlen. rewrite IH.
      by replace (5 - length acc)%nat with 0%nat by lia.
Qed.

Lemma collect_results_take rows : collect_results rows = take 5 rows.
Proof. unfold collect_results. by rewrite collect_results_acc. Qed.

(** The response for an offset [current] that the database accepts: the
    five rows from the offset on, [next] when more rows follow them,
    [previous] five rows back. *)
Lemma search_orders_at matching page current :
  current_of page = Returned current -> 0 <= current < 2 ^ 63 ->
  search_orders matching page
  = Returned
      {| previous := if decide (0 <= current - 5) then str (current - 5) else "";
         next := if decide (Z.to_nat current + 5 < length matching)%nat
                 then str (current + 5) else "";
         results := take 5 (drop (Z.to_nat current) matching) |}.
Proof.
  intros Hpage Hcurrent. unfold search_orders, limit_6_offset. rewrite Hpage.
  assert ((current <? 0) || (2 ^ 63 <=? current) = false) as ->.
  { apply orb_false_iff. split; [apply Z.ltb_ge|apply Z.leb_gt]; lia. }
  f_equal.
  rewrite collect_results_take, take_take, length_take, length_drop.
  f_equal.
  - destruct (current - 5 <? 0) eqn:Hprev; case_decide; try done; lia.
  - destruct (_ <? 6)%nat eqn:Hlen; case_decide; try done.
    + apply Nat.ltb_lt in Hlen. lia.
    + apply Nat.ltb_ge in Hlen. lia.
Qed.

(** *** The catalog *)

Global Instance num_potion_desc_trans : Transitive num_potion_desc.
Proof. unfold num_potion_desc. intros x y z ??. lia. Qed.

Global Instance num_potion_desc_total : Total num_potion_desc.
Proof. unfold num_potion_desc. intros x y. lia. Qed.

Lemma StronglySorted_sublist {A} (R : relation A) (l1 l2 : list A) :
  l1 `sublist_of` l2 -> StronglySorted R l2 -> StronglySorted R l1.
Proof.
  induction 1 as [|x l1 l2 Hsub IH|x l1 l2 Hsub IH]; intros Hsorted.
  - done.
  - apply StronglySorted_inv in Hsorted as [Hl2 Hx].
    constructor; [by apply IH|].
    eapply Forall_forall; intros y Hy.
    eapply Forall_forall in Hx; [done|]. by eapply elem_of_sublist.
  - apply StronglySorted_inv in Hsorted as [Hl2 _]. by apply IH.
Qed.

Lemma fill_catalog_acc rows acc :
  fold_left
    (fun catalog potion =>
       if ((length catalog <? 6)%nat && negb (inv_num_potion potion =? 0))%bool
       then catalog ++ [entry_of potion] else catalog)
    rows acc
  = acc ++ (entry_of <$> take (6 - length acc) (filter in_stock rows)).
Proof.
  revert acc. induction rows as [|x rows IH]; intros acc; simpl.
  - by rewrite filter_nil, take_nil, app_nil_r.
  - rewrite IH, filter_cons. unfold in_stock at 2.
    destruct (length acc <? 6)%nat eqn:Hlen; simpl.
    + apply Nat.ltb_lt in Hlen.
      destruct (inv_num_potion x =? 0) eqn:Hzero; simpl.
      * apply Z.eqb_eq in Hzero. by rewrite decide_False by (intros H; by apply H).
      * apply Z.eqb_neq in Hzero. rewrite decide_True by done.
        rewrite length_app; simpl.
        replace (6 - length acc)%nat with (S (6 - (length acc + 1)))%nat by lia.
        by rewrite <- app_assoc.
    + apply Nat.ltb_ge in Hlen.
      replace (6 - length acc)%nat with 0%nat by lia. by rewrite !take_0.
Qed.

Lemma get_catalog_rows potion_inventory :
  get_catalog potion_inventory
  = entry_of <$> take 6 (filter in_stock (order_by_num_potion_desc potion_inventory)).
Proof. unfold get_catalog, fill_catalog. by rewrite fill_catalog_acc. Qed.

(** *** Texts *)

Lemma append_cons x a b : String x a +:+ b = String x (a +:+ b).
Proof. reflexivity. Qed.

Lemma append_assoc a b c : (a +:+ b) +:+ c = a +:+ (b +:+ c).
Proof.
  induction a as [|x a IH]; [done|]. by rewrite !append_cons, IH.
Qed.

Lemma append_empty_inv a b : a +:+ b = "" -> b = "".
Proof. destruct a; [done|]. by rewrite append_cons. Qed.

Lemma drop_last_append message text :
  text <> "" -> drop_last (message +:+ text) = message +:+ drop_last text.
Proof.
  intros Htext. induction message as [|x message IH]; [done|].
  rewrite !append_cons. simpl. rewrite IH.
  destruct (message +:+ text) eqn:Hrest; [|done].
  by apply append_empty_inv in Hrest.
Qed.

(** The loop of [get_cart] only appends to [message]. *)
Lemma render_items_appends d db cart message text :
  render_items d db message cart = Returned text ->
  exists tail, text = message +:+ tail /\ (cart <> [] -> tail <> "").
Proof.
  revert message text. induction cart as [|ci rest IH]; intros message text; simpl.
  - intros [= <-]. exists ""%string. split; [|done].
    induction message as [|x message IHm]; [done|]. by rewrite append_cons, <- IHm.
  - unfold render_item. destruct (potions db !! sku ci) as [p|]; [|done].
    intros Hrest. apply IH in Hrest as (tail & -> & _).
    eexists. split; [by rewrite !append_assoc|].
    intros _. by rewrite append_cons.
Qed.

(** The not-created text is none of the other two, and for one cart the
    staged text is not the settled one. *)
Lemma phrasings_distinct cart_id cart_customer cart_payment body1 body2 :
  not_created_phrase cart_id <> staged_header cart_id cart_customer +:+ body1
  /\ not_created_phrase cart_id
     <> settled_header cart_id cart_customer cart_payment +:+ body1
  /\ staged_header cart_id cart_customer +:+ body1
     <> settled_header cart_id cart_customer cart_payment +:+ body2.
Proof.
  unfold not_created_phrase, staged_header, settled_header.
  rewrite !append_assoc.
  repeat split; intros Heq;
    repeat (apply (inj (String.append _)) in Heq);
    rewrite !append_cons in Heq; discriminate Heq.
Qed.

(** *** What a returning checkout commits *)

Lemma checked_out_tables d db cart_id pay description c :
  carts db !! cart_id = Some c ->
  let cart := select_cart_items db cart_id in
  let id := next_global_inventory_transaction_id (seqs db) in
  let first_id := next_potion_transaction_id (seqs db) in
  let db' := checked_out d db cart_id pay description in
  carts db' = <[cart_id := {| customer := customer c; payment := Some pay;
                              global_inventory_transaction_id := Some id |}]>
                (carts db)
  /\ cart_items db' = cart_items db
  /\ potion_transactions db'
     = potion_transactions db ++ new_potion_transactions first_id description cart
  /\ potion_entries db' = potion_entries db ++ new_potion_entries first_id cart
  /\ global_inventory_transactions db'
     = (describe description id <$> global_inventory_transactions db)
       ++ [{| gt_id := id; gt_description := description |}]
  /\ global_inventory_entries db'
     = global_inventory_entries db
       ++ [{| change_gold := total_gold d db cart;
              ge_global_inventory_transaction_id := id |}].
Proof.
  intros Hc cart id first_id db'. unfold db', checked_out.
  destruct (settle_found db cart_id pay c Hc)
    as (tx & -> & Hcarts & Hitems & Hpotions & Hpt & Hpe & Hgt & Hge & Hnext).
  simpl.
  destruct (fold_item_step_tables d description (select_cart_items db cart_id) tx)
    as (-> & -> & -> & ->).
  destruct (fold_item_step_potion_ledger d description
              (select_cart_items db cart_id) tx) as (-> & -> & _).
  rewrite Hcarts, Hitems, Hpt, Hpe, Hgt, Hge, Hnext, fmap_app; simpl.
  rewrite decide_True by done. done.
Qed.

Lemma checked_out_potions d db cart_id pay description c s :
  carts db !! cart_id = Some c ->
  match potions db !! s with
  | None => potions (checked_out d db cart_id pay description) !! s = None
  | Some p =>
      exists p', potions (checked_out d db cart_id pay description) !! s = Some p'
        /\ potion_type p' = potion_type p /\ price p' = price p
        /\ forall d', sold p' d'
             = sold p d' + (if decide (d' = d)
                            then quantity_of s (select_cart_items db cart_id)
                            else 0)
  end.
Proof.
  intros Hc. unfold checked_out.
  destruct (settle_found db cart_id pay c Hc) as (tx & -> & _ & _ & Hpotions & _).
  simpl. rewrite <- Hpotions. apply fold_item_step_potions.
Qed.

Lemma checked_out_num_potion d db cart_id pay description c s :
  carts db !! cart_id = Some c ->
  num_potion (checked_out d db cart_id pay description) s
  = num_potion db s - quantity_of s (select_cart_items db cart_id).
Proof.
  intros Hc.
  destruct (checked_out_tables d db cart_id pay description c Hc)
    as (_ & _ & _ & Hpe & _).
  unfold checked_out in *.
  destruct (settle_found db cart_id pay c Hc) as (tx & Hsettle & H).
  rewrite Hsettle in *; simpl in *.
  change (num_potion (fold_left (item_step d description)
                        (select_cart_items db cart_id) tx) s
          = num_potion db s - quantity_of s (select_cart_items db cart_id)).
  rewrite num_potion_fold_item_step. unfold num_potion.
  destruct H as (_ & _ & _ & _ & -> & _). done.
Qed.

(** ** Properties of the endpoints *)

(** C1. A checkout of an existing cart whose skus are all potions returns
    the sum of the quantities of the cart's rows as [total_potions_bought]
    and the sum of quantity times the day's price as [total_gold_paid]; it
    appends one potion transaction with one entry of [- quantity] per row,
    adds the quantity to the day's sold counter of the row's potion, and
    appends one gold entry of the total under the new global transaction. *)
Theorem checkout_totals_and_ledger d db cart_id pay c :
  carts db !! cart_id = Some c ->
  known_skus db (select_cart_items db cart_id) ->
  exists db' description,
    checkout d db cart_id pay
    = (db', Returned
              {| total_potions_bought := total_quantity (select_cart_items db cart_id);
                 total_gold_paid := total_gold d db (select_cart_items db cart_id) |})
    /\ potion_transactions db'
       = potion_transactions db
         ++ new_potion_transactions (next_potion_transaction_id (seqs db))
              description (select_cart_items db cart_id)
    /\ potion_entries db'
       = potion_entries db
         ++ new_potion_entries (next_potion_transaction_id (seqs db))
              (select_cart_items db cart_id)
    /\ (forall s p, potions db !! s = Some p ->
          exists p', potions db' !! s = Some p' /\ price p' = price p
            /\ forall d', sold p' d'
                 = sold p d' + (if decide (d' = d)
                                then quantity_of s (select_cart_items db cart_id)
                                else 0))
    /\ global_inventory_entries db'
       = global_inventory_entries db
         ++ [{| change_gold := total_gold d db (select_cart_items db cart_id);
                ge_global_inventory_transaction_id :=
                  next_global_inventory_transaction_id (seqs db) |}]
    /\ {| gt_id := next_global_inventory_transaction_id (seqs db);
          gt_description := description |} ∈ global_inventory_transactions db'.
Proof.
  intros Hc Hknown.
  destruct (get_cart_returns d db cart_id Hknown) as [description Hget].
  exists (checked_out d db cart_id pay description), description.
  split; [by eapply checkout_returns|].
  destruct (checked_out_tables d db cart_id pay description c Hc)
    as (_ & _ & Hpt & Hpe & Hgt & Hge).
  repeat split; try done.
  - intros s p Hp.
    pose proof (checked_out_potions d db cart_id pay description c s Hc) as Hs.
    rewrite Hp in Hs. destruct Hs as (p' & Hp' & _ & Hprice & Hsold). eauto.
  - rewrite Hgt. apply elem_of_app. right. by apply list_elem_of_singleton.
Qed.

Lemma checkout_totals_and_ledger_witness :
  known_skus Sample.staged (select_cart_items Sample.staged 1)
  /\ exists db', checkout mon Sample.staged 1 "credit_card"
                 = (db', Returned {| total_potions_bought := 3;
                                     total_gold_paid := 150 |}).
Proof.
  assert (known_skus Sample.staged (select_cart_items Sample.staged 1)) as Hknown
    by (vm_compute; repeat constructor; eauto).
  split; [exact Hknown|].
  destruct (checkout_totals_and_ledger mon Sample.staged 1 "credit_card" _
              eq_refl Hknown) as (db' & description & Hcheckout & _).
  exists db'. exact Hcheckout.
Defined.

(** C2, as the code has it.  [checkout] has no guard for a settled cart: a
    second checkout of a settled cart whose skus are all potions returns the
    totals again, overwrites the cart's payment and transaction reference,
    and appends one more global transaction, one more gold entry, and one
    more potion transaction and entry per row of the cart. *)
Theorem settled_cart_checks_out_again d db cart_id pay :
  settled db cart_id ->
  known_skus db (select_cart_items db cart_id) ->
  exists db' c',
    checkout d db cart_id pay
    = (db', Returned
              {| total_potions_bought := total_quantity (select_cart_items db cart_id);
                 total_gold_paid := total_gold d db (select_cart_items db cart_id) |})
    /\ carts db' !! cart_id = Some c'
    /\ payment c' = Some pay
    /\ global_inventory_transaction_id c'
       = Some (next_global_inventory_transaction_id (seqs db))
    /\ length (global_inventory_transactions db')
       = S (length (global_inventory_transactions db))
    /\ length (global_inventory_entries db')
       = S (length (global_inventory_entries db))
    /\ length (potion_transactions db')
       = (length (potion_transactions db)
          + length (select_cart_items db cart_id))%nat
    /\ length (potion_entries db')
       = (length (potion_entries db) + length (select_cart_items db cart_id))%nat.
Proof.
  intros (c & p & g & Hc & _ & _) Hknown.
  destruct (get_cart_returns d db cart_id Hknown) as [description Hget].
  destruct (checked_out_tables d db cart_id pay description c Hc)
    as (Hcarts & _ & Hpt & Hpe & Hgt & Hge).
  eexists (checked_out d db cart_id pay description), _.
  split; [by eapply checkout_returns|].
  rewrite Hcarts, lookup_insert_eq, Hpt, Hpe, Hgt, Hge.
  unfold new_potion_transactions, new_potion_entries.
  rewrite !length_app, !length_imap, length_fmap; simpl.
  repeat split; lia.
Qed.

Lemma settled_cart_checks_out_again_witness :
  settled Sample.paid 1
  /\ known_skus Sample.paid (select_cart_items Sample.paid 1)
  /\ exists db', checkout tue Sample.paid 1 "gold"
                 = (db', Returned {| total_potions_bought := 3;
                                     total_gold_paid := 150 |})
       /\ length (global_inventory_transactions db') = 2%nat.
Proof.
  assert (settled Sample.paid 1) as Hsettled.
  { eexists _, _, _. vm_compute. repeat split; reflexivity. }
  assert (known_skus Sample.paid (select_cart_items Sample.paid 1)) as Hknown
    by (vm_compute; repeat constructor; eauto).
  split; [exact Hsettled|]. split; [exact Hknown|].
  destruct (settled_cart_checks_out_again tue Sample.paid 1 "gold" Hsettled Hknown)
    as (db' & c' & Hcheckout & _ & _ & _ & Hlen & _).
  exists db'. split; [exact Hcheckout|exact Hlen].
Defined.

(** C2, as stated, fails: the second checkout of the paid cart of the
    sample shop returns its totals instead of raising, and the ledger has
    grown. *)
Lemma settled_cart_checkout_counterexample :
  settled Sample.paid 1
  /\ snd (checkout tue Sample.paid 1 "gold")
     = Returned {| total_potions_bought := 3; total_gold_paid := 150 |}
  /\ snd (checkout tue Sample.paid 1 "gold") <> Raised (ApiError CartAlreadySettled)
  /\ ledger (fst (checkout tue Sample.paid 1 "gold")) <> ledger Sample.paid.
Proof.
  split; [eexists _, _, _; vm_compute; repeat split; reflexivity|].
  split; [by vm_compute|]. split; [by vm_compute|].
  intros Hledger.
  apply (f_equal (fun l => length (snd l))) in Hledger.
  vm_compute in Hledger. discriminate Hledger.
Qed.

(** C3, as the code has it.  [set_item_quantity] only inserts: two calls
    for one sku leave two rows in the cart, after the rows it had, and the
    cart then holds the sum of both quantities of that sku. *)
Theorem set_item_quantity_appends db cart_id s q1 q2 :
  snd (set_item_quantity db cart_id s q1) = Returned "OK"%string
  /\ select_cart_items
       (fst (set_item_quantity (fst (set_item_quantity db cart_id s q1))
               cart_id s q2)) cart_id
     = select_cart_items db cart_id
       ++ [{| items_id := next_items_id (seqs db); ci_cart_id := cart_id;
              sku := s; quantity := q1 |};
           {| items_id := next_items_id (seqs db) + 1; ci_cart_id := cart_id;
              sku := s; quantity := q2 |}]
  /\ quantity_of s
       (select_cart_items
          (fst (set_item_quantity (fst (set_item_quantity db cart_id s q1))
                  cart_id s q2)) cart_id)
     = quantity_of s (select_cart_items db cart_id) + q1 + q2.
Proof.
  split; [done|].
  assert (select_cart_items
            (fst (set_item_quantity (fst (set_item_quantity db cart_id s q1))
                    cart_id s q2)) cart_id
          = select_cart_items db cart_id
            ++ [{| items_id := next_items_id (seqs db); ci_cart_id := cart_id;
                   sku := s; quantity := q1 |};
                {| items_id := next_items_id (seqs db) + 1; ci_cart_id := cart_id;
                   sku := s; quantity := q2 |}]) as Hrows.
  { unfold select_cart_items; simpl. rewrite <- app_assoc; simpl.
    rewrite filter_app, !filter_cons, filter_nil; simpl.
    by destruct (decide (cart_id = cart_id)). }
  split; [exact Hrows|]. rewrite Hrows.
  unfold quantity_of, total_quantity.
  rewrite filter_app, !filter_cons, filter_nil; simpl.
  destruct (decide (s = s)); [|done]. rewrite fmap_app, foldr_app; simpl.
  generalize (quantity <$> filter (fun ci => sku ci = s) (select_cart_items db cart_id)).
  intros l. induction l as [|x l IH]; simpl; lia.
Qed.

(** C3, as stated, fails: after Bob set the quantity of blue potions to 3
    and then to 5, his cart holds both rows, and checking it out buys 8. *)
Lemma set_item_quantity_twice_counterexample :
  quantity <$> select_cart_items Sample.twice 2 = [3; 5]
  /\ snd (checkout mon Sample.twice 2 "gold")
     = Returned {| total_potions_bought := 8; total_gold_paid := 480 |}.
Proof. split; by vm_compute. Qed.

(** C4. The description that a returning checkout stores with its global
    transaction, the one its gold entry and the cart refer to, is the
    rendering of the cart in the database as it was committed before the
    call: [get_cart] reads through a connection of its own, which sees
    neither the payment just set nor the entries just appended. *)
Theorem checkout_description_rendered_before d db cart_id pay c :
  carts db !! cart_id = Some c ->
  known_skus db (select_cart_items db cart_id) ->
  exists db' r description c',
    checkout d db cart_id pay = (db', Returned r)
    /\ get_cart d db cart_id = Returned description
    /\ {| gt_id := next_global_inventory_transaction_id (seqs db);
          gt_description := description |} ∈ global_inventory_transactions db'
    /\ (forall t, t ∈ global_inventory_transactions db' ->
          gt_id t = next_global_inventory_transaction_id (seqs db) ->
          gt_description t = description)
    /\ last (global_inventory_entries db')
       = Some {| change_gold := total_gold_paid r;
                 ge_global_inventory_transaction_id :=
                   next_global_inventory_transaction_id (seqs db) |}
    /\ carts db' !! cart_id = Some c'
    /\ global_inventory_transaction_id c'
       = Some (next_global_inventory_transaction_id (seqs db)).
Proof.
  intros Hc Hknown.
  destruct (get_cart_returns d db cart_id Hknown) as [description Hget].
  destruct (checked_out_tables d db cart_id pay description c Hc)
    as (Hcarts & _ & _ & _ & Hgt & Hge).
  eexists (checked_out d db cart_id pay description), _, description, _.
  split; [by eapply checkout_returns|]. split; [done|].
  rewrite Hcarts, lookup_insert_eq, Hgt, Hge, last_snoc; simpl.
  repeat split.
  - apply elem_of_app. right. by apply list_elem_of_singleton.
  - intros t Ht Hid. apply elem_of_app in Ht as [Ht|Ht].
    + apply list_elem_of_fmap in Ht as (t0 & -> & _). unfold describe in *.
      by case_decide.
    + apply list_elem_of_singleton in Ht. by subst.
Qed.

Lemma checkout_description_rendered_before_witness :
  known_skus Sample.staged (select_cart_items Sample.staged 1)
  /\ exists db' r description,
       checkout mon Sample.staged 1 "credit_card" = (db', Returned r)
       /\ get_cart mon Sample.staged 1 = Returned description
       /\ {| gt_id := 1; gt_description := description |}
          ∈ global_inventory_transactions db'.
Proof.
  assert (known_skus Sample.staged (select_cart_items Sample.staged 1)) as Hknown
    by (vm_compute; repeat constructor; eauto).
  split; [exact Hknown|].
  destruct (checkout_description_rendered_before mon Sample.staged 1 "credit_card" _
              eq_refl Hknown)
    as (db' & r & description & c' & Hcheckout & Hget & Hin & _).
  exists db', r, description. repeat split; [exact Hcheckout|exact Hget|exact Hin].
Defined.

(** In the sample shop the stored description is the staged rendering with
    the stock before the sale; rendering the cart after the checkout gives
    another text. *)
Example paid_description :
  gt_description <$> global_inventory_transactions Sample.paid
  = [Some "Cart #1: Alice is seeking to buy: 3 RED_POTION ([100, 0, 0, 0]) for 150 gold (0 remaining)."%string]
  /\ get_cart mon Sample.paid 1
     = Returned (Some "Cart #1: Alice used credit_card to buy: 3 RED_POTION ([100, 0, 0, 0]) for 150 gold (-3 remaining)."%string).
Proof. split; by vm_compute. Qed.

(** C5, as the code has it.  For every offset [current] that the database
    accepts, from 0 to below 2^63, the page holds the five rows from the
    offset on, [next] is [current + 5] exactly when a row follows them and
    [previous] is [current - 5] when that is not negative.  Over twelve rows
    the three pages reached from [""] have 5, 5 and 2 rows, [next] is "5",
    "10", "" and [previous] is "", "0", "5". *)
Theorem search_pagination (matching : list order_row) :
  (forall current, 0 <= current < 2 ^ 63 ->
     search_orders matching (str current)
     = Returned
         {| previous := if decide (0 <= current - 5) then str (current - 5) else "";
            next := if decide (Z.to_nat current + 5 < length matching)%nat
                    then str (current + 5) else "";
            results := take 5 (drop (Z.to_nat current) matching) |})
  /\ (length matching = 12%nat ->
      search_orders matching ""
      = Returned {| previous := ""; next := "5"; results := take 5 matching |}
      /\ search_orders matching "5"
         = Returned {| previous := "0"; next := "10";
                       results := take 5 (drop 5 matching) |}
      /\ search_orders matching "10"
         = Returned {| previous := "5"; next := ""; results := drop 10 matching |}
      /\ length (take 5 matching) = 5%nat
      /\ length (take 5 (drop 5 matching)) = 5%nat
      /\ length (drop 10 matching) = 2%nat).
Proof.
  split.
  - intros current Hcurrent. apply search_orders_at; [|done].
    apply current_of_str. lia.
  - intros Hlen.
    rewrite (search_orders_at matching "" 0), (search_orders_at matching "5" 5),
      (search_orders_at matching "10" 10) by (done || lia).
    rewrite !length_take, !length_drop, Hlen.
    change (Z.to_nat 0) with 0%nat. change (Z.to_nat 5) with 5%nat.
    change (Z.to_nat 10) with 10%nat. simpl.
    rewrite (take_ge (drop 10 matching)) by (rewrite length_drop; lia).
    by repeat split.
Qed.

Lemma search_pagination_witness :
  length Sample.twelve_orders = 12%nat
  /\ 0 <= 10 < 2 ^ 63
  /\ search_orders Sample.twelve_orders "5"
     = Returned {| previous := "0"; next := "10";
                   results := Sample.order <$> [6; 7; 8; 9; 10] |}
  /\ search_orders Sample.twelve_orders (str 10)
     = Returned {| previous := "5"; next := "";
                   results := Sample.order <$> [11; 12] |}.
Proof.
  assert (0 <= 10 < 2 ^ 63) as Hbound by (split; reflexivity || discriminate).
  split; [reflexivity|]. split; [exact Hbound|].
  destruct (search_pagination Sample.twelve_orders) as [Hrule Hpages].
  split.
  - destruct (Hpages eq_refl) as (_ & Hsecond & _). exact Hsecond.
  - exact (Hrule 10 Hbound).
Defined.

(** Outside these offsets the search raises: the database refuses an offset
    of 2^63 and a negative one, and [int] refuses a cursor that is no
    literal, such as a digit after the unit separator (code 31), which is
    not white space for it. *)
Example search_refused_cursors :
  search_orders Sample.twelve_orders "9223372036854775808" = Raised DataError
  /\ search_orders Sample.twelve_orders "-5" = Raised DataError
  /\ search_orders Sample.twelve_orders (String (ascii_of_nat 31) "5")
     = Raised ValueError
  /\ search_orders Sample.twelve_orders "five" = Raised ValueError
  /\ search_orders Sample.twelve_orders " 5 "
     = search_orders Sample.twelve_orders "5".
Proof. repeat split; by vm_compute. Qed.

(** C5, as stated, fails: on the second and third page [previous] is "0"
    and "5", not "5" and "10". *)
Lemma search_previous_counterexample :
  search_orders Sample.twelve_orders "5"
  = Returned {| previous := "0"; next := "10";
                results := Sample.order <$> [6; 7; 8; 9; 10] |}
  /\ search_orders Sample.twelve_orders "10"
     = Returned {| previous := "5"; next := "";
                   results := Sample.order <$> [11; 12] |}.
Proof. split; by vm_compute. Qed.

(** C6. The catalog lists rows of [potion_inventory] (each at most as often
    as the table has it), at most six, none with stock 0, in descending
    order of stock; a row with non-zero stock that is not listed has no more
    stock than any listed one.  The quantity shown is the stock capped at
    10000; the endpoint only reads, so the row of the table keeps its
    stock: one with 15000 is shown with quantity 10000. *)
Theorem catalog_lists_top_six (potion_inventory : list inventory_row) :
  exists rows,
    get_catalog potion_inventory = entry_of <$> rows
    /\ (length (get_catalog potion_inventory) <= 6)%nat
    /\ rows ⊆+ potion_inventory
    /\ Forall in_stock rows
    /\ StronglySorted num_potion_desc rows
    /\ (forall r, r ∈ potion_inventory -> in_stock r ->
          r ∈ rows
          \/ (length rows = 6%nat
              /\ Forall (fun listed => inv_num_potion r <= inv_num_potion listed) rows))
    /\ Forall (fun r => c_sku (entry_of r) = inv_sku r
                        /\ c_quantity (entry_of r) = Z.min (inv_num_potion r) 10000
                        /\ c_quantity (entry_of r) <= 10000) rows
    /\ Forall (fun r => inv_num_potion r = 15000 ->
                        r ∈ potion_inventory /\ c_quantity (entry_of r) = 10000) rows.
Proof.
  set (sorted := order_by_num_potion_desc potion_inventory).
  assert (StronglySorted num_potion_desc (filter in_stock sorted)) as Hsorted.
  { eapply StronglySorted_sublist; [apply sublist_filter|].
    apply StronglySorted_merge_sort; apply _. }
  assert (take 6 (filter in_stock sorted) ⊆+ potion_inventory) as Hsub.
  { etrans; [apply sublist_submseteq, sublist_take|].
    etrans; [apply sublist_submseteq, sublist_filter|].
    apply Permutation_submseteq, merge_sort_Permutation. }
  exists (take 6 (filter in_stock sorted)).
  split; [apply get_catalog_rows|].
  split; [rewrite get_catalog_rows, length_fmap, length_take; lia|].
  split; [exact Hsub|].
  split.
  { eapply Forall_forall; intros r Hr.
    eapply elem_of_sublist in Hr; [|apply sublist_take].
    by apply list_elem_of_filter in Hr as [? _]. }
  split; [eapply StronglySorted_sublist; [apply sublist_take|exact Hsorted]|].
  split.
  { intros r Hr Hstock.
    assert (r ∈ filter in_stock sorted) as Hin.
    { apply list_elem_of_filter. split; [done|].
      unfold sorted, order_by_num_potion_desc. by rewrite merge_sort_Permutation. }
    rewrite <- (take_drop 6 (filter in_stock sorted)) in Hin, Hsorted.
    apply elem_of_app in Hin as [Hin|Hin]; [by left|right].
    split.
    - rewrite length_take. apply list_elem_of_lookup in Hin as [i Hi].
      apply lookup_lt_Some in Hi. rewrite length_drop in Hi. lia.
    - eapply Forall_forall; intros listed Hlisted.
      by eapply (StronglySorted_app_1_elem_of num_potion_desc). }
  split.
  { eapply Forall_forall; intros r _. unfold entry_of; simpl.
    destruct (Z.leb_spec (inv_num_potion r) 10000); repeat split; lia. }
  eapply Forall_forall; intros r Hr H15000. split.
  - by eapply elem_of_submseteq.
  - unfold entry_of; simpl. by rewrite H15000.
Qed.

Lemma catalog_lists_top_six_witness :
  (length (get_catalog Sample.inventory) <= 6)%nat
  /\ Sample.stock "B" 15000 ∈ Sample.inventory.
Proof.
  destruct (catalog_lists_top_six Sample.inventory) as (rows & _ & Hlen & _).
  split; [exact Hlen|]. unfold Sample.inventory. set_solver.
Defined.

(** The catalog of the sample inventory. *)
Example sample_catalog :
  (c_sku <$> get_catalog Sample.inventory, c_quantity <$> get_catalog Sample.inventory)
  = (["B"; "F"; "H"; "E"; "I"; "A"]%string, [10000; 10000; 12; 7; 5; 3])
  /\ Sample.stock "B" 15000 ∈ Sample.inventory.
Proof. split; [by vm_compute|]. unfold Sample.inventory. set_solver. Qed.

(** One request changes the stock of a sku by what it sold. *)
Lemma num_potion_serve s db r :
  num_potion (serve db r) s = num_potion db s - sold_by s db r.
Proof.
  destruct r as [customer|cart_id item_sku q|d cart_id pay]; simpl.
  - unfold num_potion; simpl. lia.
  - unfold num_potion; simpl. lia.
  - destruct (checkout_cases d db cart_id pay)
      as [(c & description & Hc & _ & _ & ->)|(tx & e & ->)]; simpl.
    + by apply checked_out_num_potion with (c := c).
    + unfold num_potion; simpl. lia.
Qed.

(** C7. Starting from a sku without stock, after any sequence of requests
    the stock derived from the potion entries is minus the quantity that
    the returning checkouts of the sequence sold of the sku. *)
Theorem stock_is_minus_units_sold s db rs :
  num_potion db s = 0 ->
  num_potion (serve_all db rs) s = - units_sold s db rs.
Proof.
  intros Hzero.
  assert (forall rs db,
            num_potion (serve_all db rs) s
            = num_potion db s - units_sold s db rs) as Hrun.
  { clear. intros rs. induction rs as [|r rs IH]; intros db.
    - simpl. lia.
    - change (serve_all db (r :: rs)) with (serve_all (serve db r) rs).
      rewrite IH, num_potion_serve. simpl. lia. }
  rewrite Hrun, Hzero. lia.
Qed.

Lemma stock_is_minus_units_sold_witness :
  num_potion Sample.shop "RED_POTION" = 0
  /\ num_potion
       (serve_all Sample.shop
          [CreateCart "Alice"; SetItemQuantity 1 "RED_POTION" 3;
           Checkout mon 1 "credit_card"; Checkout tue 9 "gold";
           Checkout tue 1 "gold"]) "RED_POTION"
     = - units_sold "RED_POTION" Sample.shop
          [CreateCart "Alice"; SetItemQuantity 1 "RED_POTION" 3;
           Checkout mon 1 "credit_card"; Checkout tue 9 "gold";
           Checkout tue 1 "gold"].
Proof.
  split; [reflexivity|].
  apply (stock_is_minus_units_sold "RED_POTION" Sample.shop). reflexivity.
Defined.

Example sample_units_sold :
  units_sold "RED_POTION" Sample.shop
    [CreateCart "Alice"; SetItemQuantity 1 "RED_POTION" 3;
     Checkout mon 1 "credit_card"; Checkout tue 9 "gold"; Checkout tue 1 "gold"]
  = 6.
Proof. by vm_compute. Qed.

(** C8, as the code has it.  A checkout of a cart id that is not in [carts]
    ends with the AttributeError of [.first().id] on an empty result, and
    its transaction is rolled back: no table has changed. *)
Theorem checkout_missing_cart_raises d db cart_id pay :
  carts db !! cart_id = None ->
  snd (checkout d db cart_id pay) = Raised (AttributeError "id")
  /\ carts (fst (checkout d db cart_id pay)) = carts db
  /\ cart_items (fst (checkout d db cart_id pay)) = cart_items db
  /\ potions (fst (checkout d db cart_id pay)) = potions db
  /\ ledger (fst (checkout d db cart_id pay)) = ledger db.
Proof.
  intros Hmissing. unfold checkout.
  destruct (settle_missing db cart_id pay Hmissing) as [tx ->]. done.
Qed.

Lemma checkout_missing_cart_raises_witness :
  carts Sample.staged !! 7 = None
  /\ snd (checkout mon Sample.staged 7 "gold") = Raised (AttributeError "id").
Proof.
  split; [reflexivity|].
  apply (checkout_missing_cart_raises mon Sample.staged 7 "gold"). reflexivity.
Defined.

(** C8, as stated, fails: the exception is not a CartNotFound error. *)
Lemma checkout_missing_cart_counterexample :
  carts Sample.staged !! 7 = None
  /\ snd (checkout mon Sample.staged 7 "gold") = Raised (AttributeError "id")
  /\ snd (checkout mon Sample.staged 7 "gold") <> Raised (ApiError CartNotFound).
Proof. repeat split; by vm_compute. Qed.

(** The phrasings of [get_cart] by the state the code tests for. *)
Lemma get_cart_phrasing d db cart_id :
  match carts db !! cart_id with
  | None => get_cart d db cart_id = Returned (Some (not_created_phrase cart_id))
  | Some c =>
      select_cart_items db cart_id <> [] ->
      known_skus db (select_cart_items db cart_id) ->
      exists text,
        render_items d db
          (if truthy_str (payment c)
           then settled_header cart_id (customer c) (default "None"%string (payment c))
           else staged_header cart_id (customer c))
          (select_cart_items db cart_id) = Returned text
        /\ get_cart d db cart_id = Returned (Some (drop_last text +:+ "."))
  end.
Proof.
  unfold get_cart. destruct (carts db !! cart_id) as [c|]; [|done].
  intros Hrows Hknown.
  destruct (select_cart_items db cart_id) as [|ci rest] eqn:Hcart; [done|].
  unfold settled_header, staged_header.
  edestruct (render_items_returns d db) as [text Htext]; [exact Hknown|].
  exists text. split; [exact Htext|]. by rewrite Htext.
Qed.

(** C9, as the code has it.  [get_cart] returns the not-created phrasing for
    a cart id that is not in [carts]; for a cart with rows, all of known
    potions, it returns the staged phrasing when the cart has no payment and
    the settled phrasing, with the payment in it, when its payment is a
    non-empty string.  The three texts differ. *)
Theorem get_cart_three_phrasings d db cart_id :
  (carts db !! cart_id = None ->
   get_cart d db cart_id = Returned (Some (not_created_phrase cart_id)))
  /\ (forall c, carts db !! cart_id = Some c ->
        select_cart_items db cart_id <> [] ->
        known_skus db (select_cart_items db cart_id) ->
        (payment c = None ->
         exists body, get_cart d db cart_id
                      = Returned (Some (staged_header cart_id (customer c) +:+ body)))
        /\ (forall p, payment c = Some p -> p <> ""%string ->
            exists body, get_cart d db cart_id
                         = Returned (Some (settled_header cart_id (customer c) p
                                           +:+ body))))
  /\ (forall cart_customer cart_payment body1 body2,
        not_created_phrase cart_id <> staged_header cart_id cart_customer +:+ body1
        /\ not_created_phrase cart_id
           <> settled_header cart_id cart_customer cart_payment +:+ body1
        /\ staged_header cart_id cart_customer +:+ body1
           <> settled_header cart_id cart_customer cart_payment +:+ body2).
Proof.
  split; [|split].
  - intros Hmissing. unfold get_cart. by rewrite Hmissing.
  - intros c Hc Hrows Hknown.
    pose proof (get_cart_phrasing d db cart_id) as Hphrase.
    rewrite Hc in Hphrase.
    destruct (Hphrase Hrows Hknown) as (text & Htext & ->).
    apply render_items_appends in Htext as (tail & -> & Htail).
    rewrite drop_last_append, append_assoc by by apply Htail.
    split.
    + intros Hnone. rewrite Hnone; simpl. eauto.
    + intros p Hp Hnonempty. rewrite Hp; simpl.
      destruct p as [|x p]; [done|]. simpl. eauto.
  - intros. apply phrasings_distinct.
Qed.

Lemma get_cart_three_phrasings_witness :
  carts Sample.staged !! 7 = None
  /\ known_skus Sample.paid (select_cart_items Sample.paid 1)
  /\ get_cart mon Sample.staged 7 = Returned (Some (not_created_phrase 7))
  /\ (exists body, get_cart mon Sample.staged 1
                   = Returned (Some (staged_header 1 "Alice" +:+ body)))
  /\ (exists body, get_cart mon Sample.paid 1
                   = Returned (Some (settled_header 1 "Alice" "credit_card" +:+ body))).
Proof.
  assert (known_skus Sample.paid (select_cart_items Sample.paid 1)) as Hpaid
    by (vm_compute; repeat constructor; eauto).
  assert (known_skus Sample.staged (select_cart_items Sample.staged 1)) as Hstaged
    by (vm_compute; repeat constructor; eauto).
  split; [reflexivity|]. split; [exact Hpaid|]. split; [|split].
  - by apply (get_cart_three_phrasings mon Sample.staged 7).
  - destruct (get_cart_three_phrasings mon Sample.staged 1) as (_ & Hrows & _).
    edestruct Hrows as [Hnone _]; [reflexivity|by vm_compute|exact Hstaged|].
    by apply Hnone.
  - destruct (get_cart_three_phrasings mon Sample.paid 1) as (_ & Hrows & _).
    edestruct Hrows as [_ Hsome]; [reflexivity|by vm_compute|exact Hpaid|].
    by apply (Hsome "credit_card"%string).
Defined.

(** C9, as stated, fails: Bob's cart has no rows; checked out, it is
    settled, and [get_cart] returns no text for it. *)
Lemma checked_out_empty_cart_counterexample :
  snd (checkout mon Sample.staged 2 "gold")
  = Returned {| total_potions_bought := 0; total_gold_paid := 0 |}
  /\ settled Sample.paid_empty 2
  /\ get_cart mon Sample.paid_empty 2 = Returned None.
Proof.
  split; [by vm_compute|].
  split; [eexists _, _, _; vm_compute; repeat split; reflexivity|by vm_compute].
Qed.

(** A cart checked out with the empty string as payment is settled, yet
    rendered with the staged phrasing: the test [if cart.payment] is false
    for the empty string. *)
Example empty_payment_renders_as_staged :
  settled Sample.paid_with_nothing 1
  /\ snd (checkout mon Sample.staged 1 "")
     = Returned {| total_potions_bought := 3; total_gold_paid := 150 |}
  /\ get_cart mon Sample.paid_with_nothing 1
     = Returned (Some "Cart #1: Alice is seeking to buy: 3 RED_POTION ([100, 0, 0, 0]) for 150 gold (-3 remaining)."%string).
Proof.
  split; [eexists _, _, _; vm_compute; repeat split; reflexivity|].
  split; by vm_compute.
Qed.

(** C10. For a cart that is in [carts] and has no row in [cart_items],
    [get_cart] returns None: no text at all, unlike the three phrasings. *)
Theorem get_cart_of_empty_cart d db cart_id c :
  carts db !! cart_id = Some c ->
  select_cart_items db cart_id = [] ->
  get_cart d db cart_id = Returned None
  /\ forall text, get_cart d db cart_id <> Returned (Some text).
Proof.
  intros Hc Hempty. unfold get_cart. rewrite Hc, Hempty. done.
Qed.

Lemma get_cart_of_empty_cart_witness :
  select_cart_items Sample.staged 2 = []
  /\ get_cart mon Sample.staged 2 = Returned None.
Proof.
  split; [reflexivity|].
  eapply (get_cart_of_empty_cart mon Sample.staged 2); reflexivity.
Defined.

(** * Further properties of the endpoints *)

(** ** More about [checkout] *)

Lemma seqs_le_refl s : seqs_le s s.
Proof. unfold seqs_le. lia. Qed.

Lemma seqs_le_trans s1 s2 s3 : seqs_le s1 s2 -> seqs_le s2 s3 -> seqs_le s1 s3.
Proof. unfold seqs_le. lia. Qed.

Lemma render_items_raised d db message cart e :
  render_items d db message cart = Raised e -> e = AttributeError "potion_type".
Proof.
  revert message. induction cart as [|ci rest IH]; intros message; simpl; [done|].
  unfold render_item. destruct (potions db !! sku ci) as [p|].
  - apply IH.
  - by intros [= <-].
Qed.

Lemma get_cart_raised d db cart_id e :
  get_cart d db cart_id = Raised e -> e = AttributeError "potion_type".
Proof.
  unfold get_cart. destruct (carts db !! cart_id) as [c|]; [|done].
  destruct (select_cart_items db cart_id) as [|ci rest]; [done|].
  destruct (render_items _ _ _ _) as [text|e'] eqn:Hrender; [done|].
  intros [= <-]. by eapply render_items_raised.
Qed.

Lemma item_step_seqs d description tx ci :
  seqs_le (seqs tx) (seqs (item_step d description tx ci)).
Proof. unfold seqs_le; simpl. lia. Qed.

(** Where the loop stops, no sequence is behind where it started, and an
    exception is one of the two AttributeErrors. *)
Lemma checkout_items_result d committed cart_id cart a b tx tx' o :
  checkout_items d committed cart_id cart a b tx = (tx', o) ->
  seqs_le (seqs tx) (seqs tx')
  /\ forall e, o = Raised e ->
       e = AttributeError (day_name d +:+ "_price")
       \/ e = AttributeError "potion_type".
Proof.
  revert a b tx. induction cart as [|ci rest IH]; intros a b tx; simpl.
  - intros [= <- <-]. split; [apply seqs_le_refl|done].
  - destruct (potions tx !! sku ci) as [p|].
    + destruct (get_cart d committed cart_id) as [description|e'] eqn:Hget.
      * intros Hrest. apply IH in Hrest as [Hseqs Hexn]. split; [|done].
        eapply seqs_le_trans; [|exact Hseqs].
        apply (item_step_seqs d description tx ci).
      * intros [= <- <-]. split; [apply seqs_le_refl|].
        intros e [= <-]. right. by eapply get_cart_raised.
    + intros [= <- <-]. split; [apply seqs_le_refl|].
      intros e [= <-]. by left.
Qed.

Lemma settle_seqs db cart_id pay :
  seqs_le (seqs db) (seqs (fst (settle db cart_id pay))).
Proof.
  unfold settle, seqs_le. destruct (carts _ !! cart_id); simpl; lia.
Qed.

(** A raising checkout: the committed tables with sequences that have not
    moved backwards, and the exception it can be. *)
Lemma checkout_raised_inv d db cart_id pay db' e :
  checkout d db cart_id pay = (db', Raised e) ->
  (exists tx, db' = rollback db tx /\ seqs_le (seqs db) (seqs tx))
  /\ (e = AttributeError "id" /\ carts db !! cart_id = None
      \/ is_Some (carts db !! cart_id)
         /\ (e = AttributeError (day_name d +:+ "_price")
             \/ e = AttributeError "potion_type")).
Proof.
  unfold checkout.
  pose proof (settle_seqs db cart_id pay) as Hsettle.
  destruct (settle db cart_id pay) as [tx [gid|e0]] eqn:Hs; simpl in Hsettle.
  - assert (is_Some (carts db !! cart_id)) as Hsome.
    { unfold settle in Hs; simpl in Hs.
      destruct (carts db !! cart_id); [eauto|done]. }
    destruct (checkout_items _ _ _ _ _ _ _) as [tx' [[a b]|e1]] eqn:Hloop;
      apply checkout_items_result in Hloop as [Hseqs Hexn].
    + destruct (get_cart d db cart_id) as [description|e2] eqn:Hget; [done|].
      intros [= <- <-]. split; [eauto using seqs_le_trans|].
      right. split; [done|]. right. by eapply get_cart_raised.
    + intros [= <- <-]. split; [eauto using seqs_le_trans|].
      right. split; [done|]. by apply Hexn.
  - intros [= <- <-]. split; [eauto|]. left.
    unfold settle in Hs; simpl in Hs.
    destruct (carts db !! cart_id); [done|]. by injection Hs as _ <-.
Qed.

(** X1. [checkout] returns exactly when the cart is in [carts] and every
    sku of its rows is in [potions]. *)
Theorem checkout_returns_iff d db cart_id pay :
  (exists response, snd (checkout d db cart_id pay) = Returned response)
  <-> is_Some (carts db !! cart_id)
      /\ known_skus db (select_cart_items db cart_id).
Proof.
  split.
  - intros [response Hreturned].
    destruct (carts db !! cart_id) as [c|] eqn:Hc.
    + split; [eauto|].
      destruct (decide (known_skus db (select_cart_items db cart_id))); [done|].
      destruct (checkout_raises d db cart_id pay) as (tx & e & Hraise); [by right|].
      rewrite Hraise in Hreturned. done.
    + destruct (checkout_raises d db cart_id pay) as (tx & e & Hraise); [by left|].
      rewrite Hraise in Hreturned. done.
  - intros [[c Hc] Hknown].
    destruct (get_cart_returns d db cart_id Hknown) as [description Hget].
    rewrite (checkout_returns d db cart_id pay c description Hc Hknown Hget). eauto.
Qed.

(** X2. A checkout that raises ends with an AttributeError, for the missing
    cart row or for a missing potion row, and is rolled back: carts, cart
    rows, potions and the four ledger tables are as before the call. *)
Theorem checkout_raise_is_rolled_back d db cart_id pay e :
  snd (checkout d db cart_id pay) = Raised e ->
  (exists attr, e = AttributeError attr)
  /\ (e = AttributeError "id" <-> carts db !! cart_id = None)
  /\ carts (fst (checkout d db cart_id pay)) = carts db
  /\ cart_items (fst (checkout d db cart_id pay)) = cart_items db
  /\ potions (fst (checkout d db cart_id pay)) = potions db
  /\ ledger (fst (checkout d db cart_id pay)) = ledger db.
Proof.
  intros Hraised.
  destruct (checkout d db cart_id pay) as [db' o] eqn:Hcheckout.
  simpl in Hraised. subst o.
  apply checkout_raised_inv in Hcheckout
    as [(tx & -> & _) [[-> Hnone]|[Hsome Hattr]]].
  - split; [eauto|]. by repeat split.
  - split; [destruct Hattr as [->| ->]; eauto|].
    split; [|by repeat split].
    split.
    + intros ->. destruct d, Hattr as [Hattr|Hattr]; discriminate Hattr.
    + intros Hnone. rewrite Hnone in Hsome. by destruct Hsome.
Qed.

Lemma checkout_raise_is_rolled_back_witness :
  snd (checkout mon Sample.staged 7 "gold") = Raised (AttributeError "id")
  /\ ledger (fst (checkout mon Sample.staged 7 "gold")) = ledger Sample.staged.
Proof.
  assert (snd (checkout mon Sample.staged 7 "gold") = Raised (AttributeError "id"))
    as Hraised by reflexivity.
  split; [exact Hraised|].
  destruct (checkout_raise_is_rolled_back mon Sample.staged 7 "gold" _ Hraised)
    as (_ & _ & _ & _ & _ & Hledger). exact Hledger.
Defined.

Lemma checkout_returned_inv d db cart_id pay db' response :
  checkout d db cart_id pay = (db', Returned response) ->
  exists c description,
    carts db !! cart_id = Some c
    /\ known_skus db (select_cart_items db cart_id)
    /\ get_cart d db cart_id = Returned description
    /\ db' = checked_out d db cart_id pay description
    /\ response
       = {| total_potions_bought := total_quantity (select_cart_items db cart_id);
            total_gold_paid := total_gold d db (select_cart_items db cart_id) |}.
Proof.
  intros Hcheckout.
  destruct (checkout_cases d db cart_id pay)
    as [(c & description & Hc & Hknown & Hget & Heq)|(tx & e & Heq)];
    rewrite Heq in Hcheckout; [|done].
  injection Hcheckout as <- <-. eauto 10.
Qed.

(** X3. A returning checkout touches nothing but the marks of its cart, the
    day's sold counters of the potions in the cart, and the ledger: the
    cart rows, the other carts, the customer of the cart, and the type, the
    prices and the other sold counters of every potion stay. *)
Theorem checkout_frame d db cart_id pay db' response :
  checkout d db cart_id pay = (db', Returned response) ->
  cart_items db' = cart_items db
  /\ (forall other, other <> cart_id -> carts db' !! other = carts db !! other)
  /\ customer <$> carts db' !! cart_id = customer <$> carts db !! cart_id
  /\ (forall s, potion_type <$> potions db' !! s = potion_type <$> potions db !! s
                /\ price <$> potions db' !! s = price <$> potions db !! s)
  /\ (forall s d',
        d' <> d \/ quantity_of s (select_cart_items db cart_id) = 0 ->
        (fun p => sold p d') <$> potions db' !! s
        = (fun p => sold p d') <$> potions db !! s).
Proof.
  intros Hcheckout.
  apply checkout_returned_inv in Hcheckout
    as (c & description & Hc & _ & _ & -> & _).
  destruct (checked_out_tables d db cart_id pay description c Hc)
    as (Hcarts & Hitems & _).
  split; [done|]. split; [|split; [|split]].
  - intros other Hother. by rewrite Hcarts, lookup_insert_ne.
  - by rewrite Hcarts, lookup_insert_eq, Hc.
  - intros s.
    pose proof (checked_out_potions d db cart_id pay description c s Hc) as Hs.
    destruct (potions db !! s) as [p|].
    + destruct Hs as (p' & -> & Htype & Hprice & _). simpl.
      by rewrite Htype, Hprice.
    + by rewrite Hs.
  - intros s d' Hsame.
    pose proof (checked_out_potions d db cart_id pay description c s Hc) as Hs.
    destruct (potions db !! s) as [p|].
    + destruct Hs as (p' & -> & _ & _ & Hsold). simpl. f_equal.
      rewrite Hsold. case_decide; [|lia]. destruct Hsame as [?| ->]; [done|lia].
    + by rewrite Hs.
Qed.

Lemma checkout_frame_witness :
  checkout mon Sample.staged 1 "credit_card"
  = (fst (checkout mon Sample.staged 1 "credit_card"),
     Returned {| total_potions_bought := 3; total_gold_paid := 150 |})
  /\ cart_items (fst (checkout mon Sample.staged 1 "credit_card"))
     = cart_items Sample.staged.
Proof.
  assert (snd (checkout mon Sample.staged 1 "credit_card")
          = Returned {| total_potions_bought := 3; total_gold_paid := 150 |})
    as Hsnd by (by vm_compute).
  assert (checkout mon Sample.staged 1 "credit_card"
          = (fst (checkout mon Sample.staged 1 "credit_card"),
             Returned {| total_potions_bought := 3; total_gold_paid := 150 |}))
    as Hcheckout by (rewrite <- Hsnd; apply surjective_pairing).
  split; [exact Hcheckout|].
  destruct (checkout_frame mon Sample.staged 1 "credit_card" _ _ Hcheckout)
    as (Hitems & _). exact Hitems.
Defined.

Lemma foldr_add_snoc l x : foldr Z.add 0 (l ++ [x]) = foldr Z.add 0 l + x.
Proof. induction l as [|y l IH]; simpl; lia. Qed.

Lemma gold_balance_serve db r :
  gold_balance (serve db r) = gold_balance db + gold_paid_by db r.
Proof.
  destruct r as [customer|cart_id item_sku q|d cart_id pay]; simpl.
  - unfold gold_balance; simpl. lia.
  - unfold gold_balance; simpl. lia.
  - destruct (checkout_cases d db cart_id pay)
      as [(c & description & Hc & _ & _ & ->)|(tx & e & ->)]; simpl.
    + destruct (checked_out_tables d db cart_id pay description c Hc)
        as (_ & _ & _ & _ & _ & Hge).
      unfold gold_balance.
      by rewrite Hge, fmap_app, list_fmap_singleton, foldr_add_snoc.
    + unfold gold_balance; simpl. lia.
Qed.

(** X4. Over any sequence of requests the gold balance, the sum of the gold
    entries, grows by exactly the [total_gold_paid] that the returning
    checkouts of the sequence reported. *)
Theorem gold_balance_is_gold_paid db rs :
  gold_balance (serve_all db rs) = gold_balance db + gold_paid db rs.
Proof.
  revert db. induction rs as [|r rs IH]; intros db.
  - simpl. lia.
  - change (serve_all db (r :: rs)) with (serve_all (serve db r) rs).
    rewrite IH, gold_balance_serve. simpl. lia.
Qed.

Lemma sold_in_week_add d q p p' :
  (forall d', sold p' d' = sold p d' + (if decide (d' = d) then q else 0)) ->
  sold_in_week p' = sold_in_week p + q.
Proof.
  intros Hsold. unfold sold_in_week, convert_days; simpl. rewrite !Hsold.
  destruct d; repeat case_decide; try done; lia.
Qed.

Lemma sold_and_stock_serve db r s p :
  potions db !! s = Some p ->
  exists p', potions (serve db r) !! s = Some p'
    /\ potion_type p' = potion_type p /\ price p' = price p
    /\ sold_in_week p' + num_potion (serve db r) s
       = sold_in_week p + num_potion db s.
Proof.
  intros Hp. destruct r as [customer|cart_id item_sku q|d cart_id pay]; simpl.
  - exists p. by repeat split.
  - exists p. by repeat split.
  - destruct (checkout_cases d db cart_id pay)
      as [(c & description & Hc & _ & _ & ->)|(tx & e & ->)]; simpl.
    + pose proof (checked_out_potions d db cart_id pay description c s Hc) as Hs.
      rewrite Hp in Hs. destruct Hs as (p' & Hp' & Htype & Hprice & Hsold).
      exists p'. do 3 (split; [done|]).
      rewrite (checked_out_num_potion d db cart_id pay description c s Hc).
      rewrite (sold_in_week_add d _ p p' Hsold). lia.
    + exists p. by repeat split.
Qed.

(** X5. The sold counters and the ledger move together: for every potion,
    over any sequence of requests, the sum of its seven sold counters plus
    its stock derived from the potion entries stays what it was, and its
    type and prices are never changed. *)
Theorem sold_counters_balance_stock db rs s p :
  potions db !! s = Some p ->
  exists p', potions (serve_all db rs) !! s = Some p'
    /\ potion_type p' = potion_type p /\ price p' = price p
    /\ sold_in_week p' + num_potion (serve_all db rs) s
       = sold_in_week p + num_potion db s.
Proof.
  revert db p. induction rs as [|r rs IH]; intros db p Hp.
  - exists p. by repeat split.
  - change (serve_all db (r :: rs)) with (serve_all (serve db r) rs).
    destruct (sold_and_stock_serve db r s p Hp) as (p1 & Hp1 & Ht1 & Hpr1 & Hs1).
    destruct (IH (serve db r) p1 Hp1) as (p' & Hp' & Ht & Hpr & Hs).
    exists p'. split; [done|]. split; [congruence|]. split; [congruence|]. lia.
Qed.

Lemma sold_counters_balance_stock_witness :
  potions Sample.shop !! "RED_POTION"%string = Some Sample.red
  /\ exists p',
       potions
         (serve_all Sample.shop
            [CreateCart "Alice"; SetItemQuantity 1 "RED_POTION" 3;
             Checkout mon 1 "credit_card"]) !! "RED_POTION"%string = Some p'
       /\ sold_in_week p'
          + num_potion
              (serve_all Sample.shop
                 [CreateCart "Alice"; SetItemQuantity 1 "RED_POTION" 3;
                  Checkout mon 1 "credit_card"]) "RED_POTION"
          = sold_in_week Sample.red + num_potion Sample.shop "RED_POTION".
Proof.
  split; [reflexivity|].
  destruct (sold_counters_balance_stock Sample.shop
              [CreateCart "Alice"; SetItemQuantity 1 "RED_POTION" 3;
               Checkout mon 1 "credit_card"]
              "RED_POTION" Sample.red eq_refl)
    as (p' & Hp' & _ & _ & Hbalance).
  exists p'. split; [exact Hp'|exact Hbalance].
Defined.

(** ** Invariants of the tables *)

Lemma new_potion_transactions_ids first_id description cart :
  pt_id <$> new_potion_transactions first_id description cart
  = (fun i => first_id + Z.of_nat i) <$> seq 0 (length cart).
Proof.
  unfold new_potion_transactions. rewrite fmap_imap.
  by rewrite <- (imap_seq_0 cart (fun i => first_id + Z.of_nat i)).
Qed.

Lemma new_potion_entries_ids first_id cart :
  potion_transaction_id <$> new_potion_entries first_id cart
  = (fun i => first_id + Z.of_nat i) <$> seq 0 (length cart).
Proof.
  unfold new_potion_entries. rewrite fmap_imap.
  by rewrite <- (imap_seq_0 cart (fun i => first_id + Z.of_nat i)).
Qed.

Lemma describe_ids description transaction_id
    (l : list global_inventory_transaction_row) :
  gt_id <$> (describe description transaction_id <$> l) = gt_id <$> l.
Proof.
  rewrite <- list_fmap_compose. apply list_fmap_ext; intros _ t _; simpl.
  unfold describe. by case_decide.
Qed.

(** The UPDATE of the description finds no row among those with smaller
    ids. *)
Lemma describe_below description transaction_id
    (l : list global_inventory_transaction_row) :
  Forall (fun t => gt_id t < transaction_id) l ->
  describe description transaction_id <$> l = l.
Proof.
  intros Hbelow. rewrite <- (list_fmap_id l) at 2.
  apply Forall_fmap_ext_1. eapply Forall_impl; [exact Hbelow|].
  intros t Ht; simpl in *. unfold describe. case_decide; [lia|done].
Qed.

Lemma checked_out_seqs d db cart_id pay description c :
  carts db !! cart_id = Some c ->
  seqs (checked_out d db cart_id pay description)
  = {| next_cart_id := next_cart_id (seqs db);
       next_items_id := next_items_id (seqs db);
       next_potion_transaction_id :=
         next_potion_transaction_id (seqs db)
         + Z.of_nat (length (select_cart_items db cart_id));
       next_global_inventory_transaction_id :=
         next_global_inventory_transaction_id (seqs db) + 1 |}.
Proof.
  intros Hc. unfold checked_out, settle; simpl. rewrite Hc; simpl.
  generalize (select_cart_items db cart_id). intros cart.
  match goal with |- seqs (fold_left _ _ ?tx0) = _ =>
    assert (forall tx,
              seqs (fold_left (item_step d description) cart tx)
              = {| next_cart_id := next_cart_id (seqs tx);
                   next_items_id := next_items_id (seqs tx);
                   next_potion_transaction_id :=
                     next_potion_transaction_id (seqs tx) + Z.of_nat (length cart);
                   next_global_inventory_transaction_id :=
                     next_global_inventory_transaction_id (seqs tx) |}) as Hfold;
    [|by rewrite (Hfold tx0)]
  end.
  induction cart as [|ci rest IH]; intros tx; simpl.
  - rewrite Z.add_0_r. by destruct (seqs tx).
  - rewrite IH; simpl. f_equal. lia.
Qed.

Section Monotone.
Variables (db db' : DB).
Hypothesis Hseqs : seqs_le (seqs db) (seqs db').

Lemma ids_unique_same_tables :
  carts db' = carts db -> cart_items db' = cart_items db ->
  potion_transactions db' = potion_transactions db ->
  global_inventory_transactions db' = global_inventory_transactions db ->
  ids_unique db -> ids_unique db'.
Proof.
  destruct Hseqs as (Hc & Hi & Hp & Hg).
  intros Hcarts Hitems Hpt Hgt (Hu1 & Hu2 & Hu3 & Hu4 & Hu5 & Hu6 & Hu7).
  unfold ids_unique. rewrite Hcarts, Hitems, Hpt, Hgt.
  split; [intros k Hk; specialize (Hu1 k Hk); lia|].
  split; [eapply Forall_impl; [exact Hu2|]; simpl; intros; lia|].
  split; [done|].
  split; [eapply Forall_impl; [exact Hu4|]; simpl; intros; lia|].
  split; [done|].
  split; [eapply Forall_impl; [exact Hu6|]; simpl; intros; lia|done].
Qed.
End Monotone.

Lemma consistent_rollback db tx :
  seqs_le (seqs db) (seqs tx) -> consistent db -> consistent (rollback db tx).
Proof.
  intros Hseqs (Hu & Hl & Hr). split; [|by split].
  by apply (ids_unique_same_tables db (rollback db tx)).
Qed.

Lemma NoDup_app_fresh (old : list Z) (first : Z) (n : nat) :
  Forall (fun x => x < first) old -> NoDup old ->
  NoDup (old ++ ((fun i => first + Z.of_nat i) <$> seq 0 n)).
Proof.
  intros Hbelow Hold. apply NoDup_app. split; [done|]. split.
  - intros x Hx Hnew. apply list_elem_of_fmap in Hnew as (i & -> & _).
    eapply Forall_forall in Hbelow; [|exact Hx]. simpl in Hbelow. lia.
  - apply NoDup_fmap_2; [|apply NoDup_seq]. intros i j Hij. lia.
Qed.

Lemma consistent_checked_out d db cart_id pay description c :
  carts db !! cart_id = Some c ->
  consistent db -> consistent (checked_out d db cart_id pay description).
Proof.
  intros Hc ((Hu1 & Hu2 & Hu3 & Hu4 & Hu5 & Hu6 & Hu7) & (Hl1 & Hl2) & Hr).
  destruct (checked_out_tables d db cart_id pay description c Hc)
    as (Hcarts & Hitems & Hpt & Hpe & Hgt & Hge).
  pose proof (checked_out_seqs d db cart_id pay description c Hc) as Hseqs.
  split; [|split].
  - unfold ids_unique. rewrite Hcarts, Hitems, Hpt, Hgt, Hseqs; simpl.
    split.
    { intros k Hk. apply Hu1. destruct (decide (cart_id = k)) as [<-|Hne].
      - by rewrite Hc.
      - by rewrite lookup_insert_ne in Hk. }
    split; [done|]. split; [done|].
    split.
    { apply Forall_app. split.
      - eapply Forall_impl; [exact Hu4|]; simpl; intros; lia.
      - apply Forall_forall. intros t Ht. unfold new_potion_transactions in Ht.
        apply list_elem_of_lookup in Ht as [i Hi].
        rewrite list_lookup_imap in Hi.
        destruct (select_cart_items db cart_id !! i) eqn:Hrow; [|done].
        apply lookup_lt_Some in Hrow. injection Hi as <-. simpl. lia. }
    split.
    { rewrite fmap_app, new_potion_transactions_ids.
      apply NoDup_app_fresh; [|done]. by apply Forall_fmap. }
    split.
    { apply Forall_app. split.
      - rewrite describe_below by done.
        eapply Forall_impl; [exact Hu6|]; simpl; intros; lia.
      - constructor; [simpl; lia|constructor]. }
    rewrite fmap_app, describe_ids; simpl.
    apply NoDup_app. split; [done|]. split; [|apply NoDup_singleton].
    intros x Hx Hnew. apply list_elem_of_singleton in Hnew as ->.
    apply list_elem_of_fmap in Hx as (t & Ht & Hin).
    eapply Forall_forall in Hu6; [|exact Hin]. simpl in Hu6. lia.
  - unfold lockstep. rewrite Hpt, Hpe, Hgt, Hge, !fmap_app.
    rewrite new_potion_entries_ids, new_potion_transactions_ids, describe_ids.
    by rewrite Hl1, Hl2.
  - unfold references_valid. rewrite Hcarts, Hgt, fmap_app, describe_ids.
    intros k c' g Hk Hg. apply elem_of_app.
    destruct (decide (cart_id = k)) as [<-|Hne].
    + rewrite lookup_insert_eq in Hk. injection Hk as <-. simpl in Hg.
      injection Hg as <-. right. by apply list_elem_of_singleton.
    + rewrite lookup_insert_ne in Hk by done. left. by eapply Hr.
Qed.

Lemma checkout_seqs d db cart_id pay :
  seqs_le (seqs db) (seqs (fst (checkout d db cart_id pay))).
Proof.
  destruct (checkout d db cart_id pay) as [db' [response|e]] eqn:Hcheckout; simpl.
  - apply checkout_returned_inv in Hcheckout
      as (c & description & Hc & _ & _ & -> & _).
    rewrite (checked_out_seqs d db cart_id pay description c Hc).
    unfold seqs_le; simpl. lia.
  - by apply checkout_raised_inv in Hcheckout as [(tx & -> & Hseqs) _].
Qed.

Lemma consistent_serve db r : consistent db -> consistent (serve db r).
Proof.
  intros Hdb. destruct r as [customer|cart_id item_sku q|d cart_id pay]; simpl.
  - destruct Hdb as ((Hu1 & Hu2 & Hu3 & Hu4 & Hu5 & Hu6 & Hu7) & Hl & Hr).
    split; [|split; [done|]].
    + unfold ids_unique; simpl. split; [|done].
      intros k Hk. destruct (decide (next_cart_id (seqs db) = k)) as [<-|Hne].
      * lia.
      * rewrite lookup_insert_ne in Hk by done. specialize (Hu1 k Hk). lia.
    + intros k c g; simpl. intros Hk Hg.
      destruct (decide (next_cart_id (seqs db) = k)) as [<-|Hne].
      * rewrite lookup_insert_eq in Hk. by injection Hk as <-.
      * rewrite lookup_insert_ne in Hk by done. by eapply Hr.
  - destruct Hdb as ((Hu1 & Hu2 & Hu3 & Hu4 & Hu5 & Hu6 & Hu7) & Hl & Hr).
    split; [|by split].
    unfold ids_unique; simpl. split; [done|].
    split.
    { apply Forall_app. split.
      - eapply Forall_impl; [exact Hu2|]; simpl; intros; lia.
      - constructor; [simpl; lia|constructor]. }
    split; [|done].
    rewrite fmap_app; simpl. apply NoDup_app. split; [done|].
    split; [|apply NoDup_singleton].
    intros x Hx Hnew. apply list_elem_of_singleton in Hnew as ->.
    apply list_elem_of_fmap in Hx as (ci & Hci & Hin).
    eapply Forall_forall in Hu2; [|exact Hin]. simpl in Hu2. lia.
  - destruct (checkout d db cart_id pay) as [db' [response|e]] eqn:Hcheckout; simpl.
    + apply checkout_returned_inv in Hcheckout
        as (c & description & Hc & _ & _ & -> & _).
      by eapply consistent_checked_out.
    + apply checkout_raised_inv in Hcheckout as [(tx & -> & Hseqs) _].
      by apply consistent_rollback.
Qed.

(** X6. The requests keep the tables consistent: every generated id (cart,
    cart row, potion transaction, global transaction) stays below its
    sequence and occurs once, the n-th potion entry and the n-th gold entry
    carry the id of the n-th potion and global transaction, and every
    transaction a cart refers to is in the table. *)
Theorem requests_keep_consistent db rs :
  consistent db -> consistent (serve_all db rs).
Proof.
  revert db. induction rs as [|r rs IH]; intros db Hdb; [done|].
  change (serve_all db (r :: rs)) with (serve_all (serve db r) rs).
  by apply IH, consistent_serve.
Qed.

(** ** The ledger only grows *)

Lemma ledger_prefix_serve db r :
  consistent db ->
  potion_transactions db `prefix_of` potion_transactions (serve db r)
  /\ potion_entries db `prefix_of` potion_entries (serve db r)
  /\ global_inventory_transactions db
     `prefix_of` global_inventory_transactions (serve db r)
  /\ global_inventory_entries db `prefix_of` global_inventory_entries (serve db r)
  /\ cart_items db `prefix_of` cart_items (serve db r).
Proof.
  intros ((_ & _ & _ & _ & _ & Hbelow & _) & _).
  destruct r as [customer|cart_id item_sku q|d cart_id pay]; simpl.
  - done.
  - repeat split; try done. by apply prefix_app_r.
  - destruct (checkout d db cart_id pay) as [db' [response|e]] eqn:Hcheckout; simpl.
    + apply checkout_returned_inv in Hcheckout
        as (c & description & Hc & _ & _ & -> & _).
      destruct (checked_out_tables d db cart_id pay description c Hc)
        as (_ & -> & -> & -> & -> & ->).
      rewrite (describe_below _ _ _ Hbelow).
      repeat split; try done; by apply prefix_app_r.
    + by apply checkout_raised_inv in Hcheckout as [(tx & -> & _) _].
Qed.

(** X7. History is never rewritten: from consistent tables on, whatever the
    requests, the potion transactions, the potion entries, the global
    transactions with their descriptions, the gold entries and the cart rows
    of before are still there, unchanged and in place, at the head of their
    tables. *)
Theorem ledger_only_grows db rs :
  consistent db ->
  potion_transactions db `prefix_of` potion_transactions (serve_all db rs)
  /\ potion_entries db `prefix_of` potion_entries (serve_all db rs)
  /\ global_inventory_transactions db
     `prefix_of` global_inventory_transactions (serve_all db rs)
  /\ global_inventory_entries db
     `prefix_of` global_inventory_entries (serve_all db rs)
  /\ cart_items db `prefix_of` cart_items (serve_all db rs).
Proof.
  revert db. induction rs as [|r rs IH]; intros db Hdb; [done|].
  change (serve_all db (r :: rs)) with (serve_all (serve db r) rs).
  destruct (ledger_prefix_serve db r Hdb) as (H1 & H2 & H3 & H4 & H5).
  destruct (IH (serve db r) (consistent_serve db r Hdb))
    as (H1' & H2' & H3' & H4' & H5').
  repeat split; by etrans.
Qed.

Lemma shop_consistent : consistent Sample.shop.
Proof.
  split; [|split].
  - unfold ids_unique; simpl.
    split; [intros k [c Hk]; by rewrite lookup_empty in Hk|].
    repeat split; constructor.
  - by split.
  - intros k c g Hk. simpl in Hk. by rewrite lookup_empty in Hk.
Qed.

Lemma requests_keep_consistent_witness :
  consistent Sample.shop
  /\ consistent
       (serve_all Sample.shop
          [CreateCart "Alice"; SetItemQuantity 1 "RED_POTION" 3;
           Checkout mon 1 "credit_card"; Checkout tue 9 "gold"]).
Proof.
  split; [exact shop_consistent|].
  apply (requests_keep_consistent Sample.shop). exact shop_consistent.
Defined.

Lemma ledger_only_grows_witness :
  consistent Sample.shop
  /\ global_inventory_entries Sample.shop
     `prefix_of` global_inventory_entries
                   (serve_all Sample.shop
                      [CreateCart "Alice"; SetItemQuantity 1 "RED_POTION" 3;
                       Checkout mon 1 "credit_card"]).
Proof.
  split; [exact shop_consistent|].
  destruct (ledger_only_grows Sample.shop
              [CreateCart "Alice"; SetItemQuantity 1 "RED_POTION" 3;
               Checkout mon 1 "credit_card"] shop_consistent)
    as (_ & _ & _ & Hgold & _).
  exact Hgold.
Defined.

(** ** More about [search_orders] *)

Lemma str_nonempty n : str n <> ""%string.
Proof.
  destruct n as [|p|p]; [done| |done].
  intros Hempty. pose proof (int_str (Z.pos p)) as Hint.
  rewrite Hempty in Hint. by specialize (Hint ltac:(lia)).
Qed.

(** [int(str(n)) = n] for negative numbers too. *)
Lemma int_str_neg p : int (str (Z.neg p)) = Returned (Z.neg p).
Proof.
  pose proof (int_str (Z.pos p) ltac:(lia)) as Hpos.
  unfold int, str, pretty, pretty_Z in *.
  destruct (pretty_N_go_chars (N.pos p) "") as (ds & Hds & Hdigits & Hne & Hread).
  unfold pretty, pretty_positive, pretty, pretty_N in *.
  rewrite decide_False in * by done.
  change (String.list_ascii_of_string ("-" +:+ pretty_N_go (N.pos p) ""))
    with ("-"%char :: String.list_ascii_of_string (pretty_N_go (N.pos p) "")).
  rewrite Hds in *. simpl in *. rewrite app_nil_r in *.
  assert (Forall (fun c => is_space c = false) ("-"%char :: ds)) as Hplain.
  { constructor; [done|]. eapply Forall_impl; [exact Hdigits|].
    intros c [n Hc]. by eapply digit_of_plain. }
  rewrite (strip_plain _ Hplain). simpl.
  specialize (Hread false []). rewrite app_nil_r in Hread. rewrite Hread. done.
Qed.

(** X8. A cursor that reads as a negative number (of 64 bits) is refused by
    the database, whatever the rows are: the offset is passed on
    unchecked. *)
Theorem search_negative_cursor_raises (matching : list order_row) n :
  - 2 ^ 63 < n < 0 -> search_orders matching (str n) = Raised DataError.
Proof.
  intros Hn. destruct n as [|p|p]; [lia|lia|].
  unfold search_orders, current_of.
  destruct (String.eqb (str (Z.neg p)) "") eqn:Hempty.
  { apply String.eqb_eq in Hempty. by destruct (str_nonempty (Z.neg p)). }
  rewrite int_str_neg. reflexivity.
Qed.

Lemma search_negative_cursor_raises_witness :
  search_orders Sample.twelve_orders "-5" = Raised DataError.
Proof.
  apply (search_negative_cursor_raises Sample.twelve_orders (-5)).
  split; reflexivity.
Defined.






Lemma digits_unreadable c l acc after_digit :
  c ∈ l -> digit_of c = None -> Ascii.eqb c "_" = false ->
  digits acc after_digit l = None.
Proof.
  intros Hin Hdigit Hunderscore. revert acc after_digit.
  induction l as [|x l IH]; intros acc after_digit; [by apply elem_of_nil in Hin|].
  apply elem_of_cons in Hin as [<-|Hin]; simpl.
  - by rewrite Hdigit, Hunderscore.
  - destruct (digit_of x); [by apply IH|].
    destruct (Ascii.eqb x "_" && after_digit)%bool; [|done].
    destruct l as [|c' l']; [done|]. destruct (digit_of c'); [by apply IH|done].
Qed.

Lemma lstrip_keeps c l : c ∈ l -> is_space c = false -> c ∈ lstrip l.
Proof.
  intros Hin Hc. induction l as [|x l IH]; [done|]. simpl.
  destruct (is_space x) eqn:Hx; [|done].
  apply elem_of_cons in Hin as [->|Hin]; [congruence|by apply IH].
Qed.

Lemma strip_keeps c l : c ∈ l -> is_space c = false -> c ∈ strip l.
Proof.
  intros Hin Hc. unfold strip.
  apply elem_of_reverse, lstrip_keeps; [|done].
  apply elem_of_reverse, lstrip_keeps; done.
Qed.

(** X11. An ASCII cursor with a character that is neither a digit, a sign,
    an underscore nor white space is no integer literal: the search raises
    ValueError, whatever the rows are. *)
Theorem search_malformed_cursor_raises (matching : list order_row) page c :
  Forall (fun x => (nat_of_ascii x < 128)%nat) (String.list_ascii_of_string page) ->
  c ∈ String.list_ascii_of_string page ->
  digit_of c = None -> is_space c = false ->
  Ascii.eqb c "-" = false -> Ascii.eqb c "+" = false -> Ascii.eqb c "_" = false ->
  search_orders matching page = Raised ValueError.
Proof.
  intros _ Hin Hdigit Hspace Hminus Hplus Hunderscore.
  unfold search_orders, current_of.
  destruct (String.eqb page "") eqn:Hempty.
  { apply String.eqb_eq in Hempty. subst page. by apply elem_of_nil in Hin. }
  unfold int.
  pose proof (strip_keeps c _ Hin Hspace) as Hbody.
  destruct (strip (String.list_ascii_of_string page)) as [|c0 rest];
    [by apply elem_of_nil in Hbody|].
  destruct (Ascii.eqb c0 "-") eqn:Hc0.
  { apply Ascii.eqb_eq in Hc0 as ->.
    apply elem_of_cons in Hbody as [->|Hbody]; [done|].
    by rewrite (digits_unreadable c rest 0 false). }
  destruct (Ascii.eqb c0 "+") eqn:Hc1.
  { apply Ascii.eqb_eq in Hc1 as ->.
    apply elem_of_cons in Hbody as [->|Hbody]; [done|].
    by rewrite (digits_unreadable c rest 0 false). }
  by rewrite (digits_unreadable c (c0 :: rest) 0 false).
Qed.

Lemma search_malformed_cursor_raises_witness :
  search_orders Sample.twelve_orders "1O" = Raised ValueError.
Proof.
  apply (search_malformed_cursor_raises Sample.twelve_orders "1O" "O");
    [|simpl; set_solver|reflexivity..].
  simpl. repeat constructor.
Defined.

(** ** More about [get_catalog] *)

(** X12. The catalog has as many entries as the table has rows with
    non-zero stock, up to six; in particular it is empty exactly when no
    row has stock. *)
Theorem catalog_length (potion_inventory : list inventory_row) :
  length (get_catalog potion_inventory)
  = (length (filter in_stock potion_inventory) `min` 6)%nat
  /\ (get_catalog potion_inventory = []
      <-> Forall (fun r => inv_num_potion r = 0) potion_inventory).
Proof.
  assert (length (get_catalog potion_inventory)
          = (length (filter in_stock potion_inventory) `min` 6)%nat) as Hlen.
  { rewrite get_catalog_rows, length_fmap, length_take.
    unfold order_by_num_potion_desc.
    rewrite (merge_sort_Permutation num_potion_desc potion_inventory). lia. }
  split; [exact Hlen|]. split.
  - intros Hempty. rewrite Hempty in Hlen. simpl in Hlen.
    assert (filter in_stock potion_inventory = []) as Hnone
      by (apply length_zero_iff_nil; lia).
    apply Forall_forall. intros r Hr.
    destruct (decide (inv_num_potion r = 0)) as [|Hstock]; [done|].
    assert (r ∈ filter in_stock potion_inventory) as Hin
      by by apply list_elem_of_filter.
    rewrite Hnone in Hin. by apply elem_of_nil in Hin.
  - intros Hzero. apply length_zero_iff_nil. rewrite Hlen.
    assert (filter in_stock potion_inventory = []) as ->; [|done].
    clear Hlen. induction Hzero as [|r l Hr _ IH]; [done|].
    rewrite filter_cons, IH. unfold in_stock. by rewrite decide_False by lia.
Qed.

Lemma filter_in_stock_fmap (l : list inventory_row) :
  inv_num_potion <$> filter in_stock l
  = filter (fun n => n <> 0) (inv_num_potion <$> l).
Proof.
  induction l as [|r l IH]; [done|].
  rewrite fmap_cons, !filter_cons. unfold in_stock at 1.
  destruct (decide (inv_num_potion r <> 0)); by rewrite ?fmap_cons, IH.
Qed.

Lemma catalog_quantities (potion_inventory : list inventory_row) :
  c_quantity <$> get_catalog potion_inventory
  = shown <$> take 6 (filter (fun n => n <> 0)
                        (inv_num_potion <$> order_by_num_potion_desc potion_inventory)).
Proof.
  rewrite get_catalog_rows, <- filter_in_stock_fmap, <- fmap_take.
  rewrite <- !list_fmap_compose. by apply list_fmap_ext.
Qed.

Global Instance Z_ge_trans : Transitive (fun x y : Z => y <= x).
Proof. intros x y z ??. lia. Qed.

Global Instance Z_ge_antisymm : AntiSymm (=) (fun x y : Z => y <= x).
Proof. intros x y ??. lia. Qed.

(** X13. The quantities the catalog shows, in their order, depend on the
    stock values of the table only, not on the order of its rows; and they
    never increase down the list. *)
Theorem catalog_quantities_by_stock (t1 t2 : list inventory_row) :
  t1 ≡ₚ t2 ->
  c_quantity <$> get_catalog t1 = c_quantity <$> get_catalog t2
  /\ Sorted (fun x y : Z => y <= x) (c_quantity <$> get_catalog t1).
Proof.
  intros Hperm.
  assert (forall t, Sorted (fun x y : Z => y <= x)
                      (inv_num_potion <$> order_by_num_potion_desc t)) as Hsorted.
  { intros t. apply (Sorted_fmap _ num_potion_desc); [done|].
    apply Sorted_merge_sort; apply _. }
  split.
  - rewrite !catalog_quantities. do 3 f_equal.
    apply (Sorted_unique (fun x y : Z => y <= x)); [done..|].
    unfold order_by_num_potion_desc. apply fmap_Permutation.
    etrans; [apply merge_sort_Permutation|].
    etrans; [exact Hperm|]. symmetry. apply merge_sort_Permutation.
  - rewrite catalog_quantities.
    apply (Sorted_fmap _ (fun x y : Z => y <= x)).
    { intros x y Hxy. unfold shown.
      destruct (Z.leb_spec x 10000), (Z.leb_spec y 10000); lia. }
    apply StronglySorted_Sorted.
    eapply StronglySorted_sublist; [apply sublist_take|].
    eapply StronglySorted_sublist; [apply sublist_filter|].
    apply Sorted_StronglySorted; [apply _|apply Hsorted].
Qed.

Lemma catalog_quantities_by_stock_witness :
  c_quantity <$> get_catalog Sample.inventory
  = c_quantity <$> get_catalog (reverse Sample.inventory).
Proof.
  apply (catalog_quantities_by_stock Sample.inventory (reverse Sample.inventory)).
  symmetry. apply reverse_Permutation.
Defined.

(** ** [gen_potion_types] and [create_table] *)

Lemma elem_of_product4 (l : list Z) t :
  t ∈ CreatingDatabase.product4 l
  <-> exists a b c d, a ∈ l /\ b ∈ l /\ c ∈ l /\ d ∈ l /\ t = [a; b; c; d].
Proof.
  unfold CreatingDatabase.product4. split.
  - intros Ht.
    apply list_elem_of_bind in Ht as (a & Ht & Ha).
    apply list_elem_of_bind in Ht as (b & Ht & Hb).
    apply list_elem_of_bind in Ht as (c & Ht & Hc).
    apply list_elem_of_bind in Ht as (d & Ht & Hd).
    apply list_elem_of_singleton in Ht. eauto 10.
  - intros (a & b & c & d & Ha & Hb & Hc & Hd & ->).
    apply list_elem_of_bind. exists a. split; [|done].
    apply list_elem_of_bind. exists b. split; [|done].
    apply list_elem_of_bind. exists c. split; [|done].
    apply list_elem_of_bind. exists d. split; [|done].
    by apply list_elem_of_singleton.
Qed.

Lemma NoDup_product4 (l : list Z) : NoDup l -> NoDup (CreatingDatabase.product4 l).
Proof.
  intros Hl. unfold CreatingDatabase.product4.
  apply NoDup_bind; [| |done].
  { intros a1 a2 t _ _ H1 H2.
    apply list_elem_of_bind in H1 as (? & H1 & _).
    apply list_elem_of_bind in H1 as (? & H1 & _).
    apply list_elem_of_bind in H1 as (? & H1 & _).
    apply list_elem_of_bind in H2 as (? & H2 & _).
    apply list_elem_of_bind in H2 as (? & H2 & _).
    apply list_elem_of_bind in H2 as (? & H2 & _).
    apply list_elem_of_singleton in H1, H2. congruence. }
  intros a _. apply NoDup_bind; [| |done].
  { intros b1 b2 t _ _ H1 H2.
    apply list_elem_of_bind in H1 as (? & H1 & _).
    apply list_elem_of_bind in H1 as (? & H1 & _).
    apply list_elem_of_bind in H2 as (? & H2 & _).
    apply list_elem_of_bind in H2 as (? & H2 & _).
    apply list_elem_of_singleton in H1, H2. congruence. }
  intros b _. apply NoDup_bind; [| |done].
  { intros c1 c2 t _ _ H1 H2.
    apply list_elem_of_bind in H1 as (? & H1 & _).
    apply list_elem_of_bind in H2 as (? & H2 & _).
    apply list_elem_of_singleton in H1, H2. congruence. }
  intros c _. apply NoDup_bind; [| |done].
  { intros d1 d2 t _ _ H1 H2.
    apply list_elem_of_singleton in H1, H2. congruence. }
  intros d _. apply NoDup_singleton.
Qed.

Lemma elem_of_each_ml x l n :
  0 < x -> CreatingDatabase.each_ml x = Returned l ->
  n ∈ l <-> exists i : nat, n = Z.of_nat i * x /\ Z.of_nat i * x <= 100.
Proof.
  intros Hx. unfold CreatingDatabase.each_ml.
  destruct (x =? 0) eqn:Hzero; [lia|]. destruct (x <? 0) eqn:Hneg; [lia|].
  intros [= <-]. rewrite list_elem_of_fmap. split.
  - intros (i & -> & Hi). apply elem_of_seq in Hi. exists i. split; [done|].
    assert (Z.of_nat i <= 100 / x) as Hle by lia.
    pose proof (Z.mul_div_le 100 x Hx). nia.
  - intros (i & -> & Hi). exists i. split; [done|]. apply elem_of_seq.
    assert (Z.of_nat i <= 100 / x) by (apply Z.div_le_lower_bound; lia).
    pose proof (Z.div_pos 100 x). lia.
Qed.

(** The members of the result, for a positive step. *)
Lemma gen_potion_types_members x :
  0 < x ->
  exists potion_types,
    CreatingDatabase.gen_potion_types x = Returned potion_types
    /\ forall t, t ∈ potion_types
         <-> exists a b c d : nat,
               t = [Z.of_nat a * x; Z.of_nat b * x; Z.of_nat c * x; Z.of_nat d * x]
               /\ Z.of_nat (a + b + c + d) * x = 100.
Proof.
  intros Hx. unfold CreatingDatabase.gen_potion_types.
  destruct (CreatingDatabase.each_ml x) as [l|e] eqn:Heach.
  2:{ unfold CreatingDatabase.each_ml in Heach.
      destruct (x =? 0) eqn:Hzero; [lia|]. by destruct (x <? 0). }
  eexists. split; [reflexivity|].
  intros t. rewrite list_elem_of_filter, elem_of_product4. split.
  - intros (Hsum & a & b & c & d & Ha & Hb & Hc & Hd & ->).
    apply (elem_of_each_ml x l _ Hx Heach) in Ha as (ia & -> & _).
    apply (elem_of_each_ml x l _ Hx Heach) in Hb as (ib & -> & _).
    apply (elem_of_each_ml x l _ Hx Heach) in Hc as (ic & -> & _).
    apply (elem_of_each_ml x l _ Hx Heach) in Hd as (id & -> & _).
    exists ia, ib, ic, id. split; [done|].
    unfold CreatingDatabase.sum in Hsum; simpl in Hsum. lia.
  - intros (a & b & c & d & -> & Hsum). split.
    + unfold CreatingDatabase.sum; simpl. lia.
    + exists (Z.of_nat a * x), (Z.of_nat b * x), (Z.of_nat c * x),
        (Z.of_nat d * x).
      repeat split; try done;
        apply (elem_of_each_ml x l _ Hx Heach); eexists; (split; [done|nia]).
Qed.

(** X14. For a positive step [x], [gen_potion_types] returns, each once,
    exactly the lists of four multiples of [x] (none negative) that sum to
    100. *)
Theorem gen_potion_types_complete x :
  0 < x ->
  exists potion_types,
    CreatingDatabase.gen_potion_types x = Returned potion_types
    /\ NoDup potion_types
    /\ forall t, t ∈ potion_types
         <-> exists a b c d : nat,
               t = [Z.of_nat a * x; Z.of_nat b * x; Z.of_nat c * x; Z.of_nat d * x]
               /\ Z.of_nat (a + b + c + d) * x = 100.
Proof.
  intros Hx.
  destruct (gen_potion_types_members x Hx) as (potion_types & Hgen & Hin).
  exists potion_types. split; [done|]. split; [|done].
  unfold CreatingDatabase.gen_potion_types, CreatingDatabase.each_ml in Hgen.
  destruct (x =? 0) eqn:Hzero; [lia|]. destruct (x <? 0) eqn:Hneg; [lia|].
  injection Hgen as <-.
  apply NoDup_filter, NoDup_product4, NoDup_fmap_2; [|apply NoDup_seq].
  intros i j Hij. nia.
Qed.

Lemma gen_potion_types_complete_witness :
  exists potion_types,
    CreatingDatabase.gen_potion_types 25 = Returned potion_types
    /\ [25; 0; 50; 25] ∈ potion_types.
Proof.
  destruct (gen_potion_types_complete 25) as (potion_types & Hgen & _ & Hin); [lia|].
  exists potion_types. split; [exact Hgen|].
  apply Hin. exists 1%nat, 0%nat, 2%nat, 1%nat. split; reflexivity.
Defined.

(** X15. [gen_potion_types] finds a potion type exactly when the step
    divides 100 ("Only works for factors of 100"); a step of 0 raises
    ValueError and a negative step gives the empty list. *)
Theorem gen_potion_types_factors x :
  (x = 0 -> CreatingDatabase.gen_potion_types x = Raised ValueError)
  /\ (x < 0 -> CreatingDatabase.gen_potion_types x = Returned [])
  /\ (0 < x ->
      exists potion_types,
        CreatingDatabase.gen_potion_types x = Returned potion_types
        /\ (potion_types <> [] <-> (x | 100))).
Proof.
  split; [by intros ->|]. split.
  { intros Hneg. unfold CreatingDatabase.gen_potion_types, CreatingDatabase.each_ml.
    destruct (x =? 0) eqn:Hzero; [lia|]. by destruct (x <? 0) eqn:Hlt; [|lia]. }
  intros Hx.
  destruct (gen_potion_types_members x Hx) as (potion_types & Hgen & Hin).
  exists potion_types. split; [done|]. split.
  - intros Hne. destruct potion_types as [|t rest]; [done|].
    destruct (proj1 (Hin t)) as (a & b & c & d & _ & Hsum); [by left|].
    exists (Z.of_nat (a + b + c + d)). lia.
  - intros [k Hk] Hempty.
    assert ([Z.of_nat (Z.to_nat k) * x; Z.of_nat 0 * x; Z.of_nat 0 * x;
             Z.of_nat 0 * x] ∈ potion_types) as Hin'.
    { apply Hin. exists (Z.to_nat k), 0%nat, 0%nat, 0%nat. split; [done|]. nia. }
    rewrite Hempty in Hin'. by apply elem_of_nil in Hin'.
Qed.

Lemma gen_potion_types_factors_witness :
  CreatingDatabase.gen_potion_types 0 = Raised ValueError
  /\ CreatingDatabase.gen_potion_types (-25) = Returned [].
Proof.
  destruct (gen_potion_types_factors 0) as (Hzero & _).
  destruct (gen_potion_types_factors (-25)) as (_ & Hneg & _).
  split; [apply Hzero; reflexivity|apply Hneg; lia].
Defined.

(** ** More about [get_cart] and [create_cart] *)

(** X16. [get_cart] returns exactly when the cart id is not in [carts] or
    every sku of the cart's rows is in [potions]; otherwise it raises the
    AttributeError of reading [potion_type] from a missing potion row. *)
Theorem get_cart_returns_iff d db cart_id :
  ((exists text, get_cart d db cart_id = Returned text)
   <-> carts db !! cart_id = None
       \/ known_skus db (select_cart_items db cart_id))
  /\ (forall e, get_cart d db cart_id = Raised e ->
        e = AttributeError "potion_type").
Proof.
  split; [|intros e; apply get_cart_raised].
  split.
  - intros [text Htext].
    destruct (carts db !! cart_id) as [c|] eqn:Hc; [|by left]. right.
    destruct (decide (known_skus db (select_cart_items db cart_id)))
      as [|Hunknown]; [done|].
    destruct (get_cart_raises d db cart_id c Hc Hunknown) as [e He].
    rewrite He in Htext. done.
  - intros [Hnone|Hknown].
    + unfold get_cart. rewrite Hnone. eauto.
    + by apply get_cart_returns.
Qed.

Lemma get_cart_returns_iff_witness :
  exists text, get_cart mon Sample.staged 1 = Returned text.
Proof.
  apply (get_cart_returns_iff mon Sample.staged 1). right.
  vm_compute. repeat constructor. eauto.
Defined.

(** X17. After a checkout has returned for a cart with rows and a non-empty
    payment string, [get_cart] renders the cart, on any day, with the
    settled phrasing: the cart's customer and the payment of the checkout. *)
Theorem checkout_then_get_cart d d' db cart_id pay db' response :
  checkout d db cart_id pay = (db', Returned response) ->
  select_cart_items db cart_id <> [] ->
  pay <> ""%string ->
  exists c body,
    carts db !! cart_id = Some c
    /\ get_cart d' db' cart_id
       = Returned (Some (settled_header cart_id (customer c) pay +:+ body)).
Proof.
  intros Hcheckout Hrows Hpay.
  apply checkout_returned_inv in Hcheckout
    as (c & description & Hc & Hknown & _ & -> & _).
  destruct (checked_out_tables d db cart_id pay description c Hc)
    as (Hcarts & Hitems & _).
  assert (select_cart_items (checked_out d db cart_id pay description) cart_id
          = select_cart_items db cart_id) as Hsame
    by (unfold select_cart_items; by rewrite Hitems).
  assert (known_skus (checked_out d db cart_id pay description)
            (select_cart_items db cart_id)) as Hknown'.
  { eapply Forall_impl; [exact Hknown|]. intros ci [p Hp].
    pose proof (checked_out_potions d db cart_id pay description c (sku ci) Hc)
      as Hs.
    rewrite Hp in Hs. destruct Hs as (p' & Hp' & _). by exists p'. }
  pose proof (get_cart_phrasing d' (checked_out d db cart_id pay description)
                cart_id) as Hphrase.
  rewrite Hcarts, lookup_insert_eq, Hsame in Hphrase. simpl in Hphrase.
  destruct (Hphrase Hrows Hknown') as (text & Htext & ->).
  destruct pay as [|x pay]; [done|]. simpl in Htext.
  apply render_items_appends in Htext as (tail & -> & Htail).
  rewrite drop_last_append, append_assoc by by apply Htail.
  eauto.
Qed.

Lemma checkout_then_get_cart_witness :
  exists c body,
    carts Sample.staged !! 1 = Some c
    /\ get_cart tue (fst (checkout mon Sample.staged 1 "credit_card")) 1
       = Returned (Some (settled_header 1 (customer c) "credit_card" +:+ body)).
Proof.
  assert (snd (checkout mon Sample.staged 1 "credit_card")
          = Returned {| total_potions_bought := 3; total_gold_paid := 150 |})
    as Hsnd by (by vm_compute).
  apply (checkout_then_get_cart mon tue Sample.staged 1 "credit_card" _
           {| total_potions_bought := 3; total_gold_paid := 150 |}).
  - rewrite <- Hsnd. apply surjective_pairing.
  - by vm_compute.
  - done.
Defined.


